(** * katago-mcp: the engine client and the board coordinates

    A shallow embedding of [sgf_reader.py] (the GTP coordinate
    translation) and of [katago_client.py] (the client of the KataGo
    analysis engine: query building, reply decoding, the pending-request
    table, the reply cache and the reader of the engine's output).  It goes
    on to the SGF coordinates, the star points, the picture of the board
    and the history of the moves of [sgf_reader.py], to the territory map
    of [katago_client.py] and to the client of [server.py].

    Conventions of the embedding.
    - A Python [int] is a [Z], a Python [float] a binary64 [float], a
      Python [str] a [string] of ASCII characters.
    - CPython converts between an [int] and its decimal text only up to
      4300 digits.  The limit is part of the conversions of a coordinate
      and of the number of a move ([py_str], [int_of_str]): a row is any
      [int] the caller passes.  The number of lines of a board in memory
      and the count of threads are far below the limit, and their text is
      [str_of_int].
    - A call that can raise returns an [outcome]: [Ok v] or [Raise e].
    - A JSON object received from the engine is read at the types its
      protocol gives to its fields (those the dataclasses [MoveInfo] and
      [AnalysisResult] declare); every field may be absent, which is what
      [dict.get(key, default)] is there for.  An object with a field of
      another type, [null] included, is outside the embedding.
    - The state of a client is a record, threaded through the methods.
      [threading.Event] objects live in a store and are named by their
      address, so that two references to one event see the same flag.
    - What the world decides (does a file exist, does the process start,
      does a write fail, which lines does the engine print and when) is an
      argument of the method that asks.
    - Messages printed when [debug] is set are not part of the state. *)

From Stdlib Require Import ZArith Ascii String Decimal DecimalString DecimalZ.
From Stdlib Require Import Floats.PrimFloat.
From stdpp Require Import base option list sorting gmap strings.

Local Open Scope string_scope.
Local Open Scope Z_scope.

(* A decimal literal denotes the nearest binary64 value, as in Python. *)
#[local] Set Warnings "-inexact-float".

(** ** Python values and built-ins *)

Module Py.

(** The exceptions the modelled code raises, with the message where the
    code builds one. *)
Inductive exn : Type :=
  | IndexError
  | ValueError
  | AttributeError
  | JSONDecodeError
  | OSError
  | BrokenPipeError
  | FileNotFoundError (msg : string)
  | RuntimeError (msg : string).

(** [isinstance(e, OSError)]: [BrokenPipeError] and [FileNotFoundError]
    are subclasses of [OSError]. *)
Definition is_OSError (e : exn) : bool :=
  match e with
  | OSError | BrokenPipeError | FileNotFoundError _ => true
  | _ => false
  end.

Inductive outcome (A : Type) : Type :=
  | Ok (a : A)
  | Raise (e : exn).
Arguments Ok {A} a.
Arguments Raise {A} e.

Definition bind {A B} (r : outcome A) (k : A -> outcome B) : outcome B :=
  match r with
  | Ok a => k a
  | Raise e => Raise e
  end.

(** [outcome] is a monad; stdpp's notation [x ← r; k] sequences calls that
    can raise. *)
#[global] Instance outcome_ret : MRet outcome := @Ok.
#[global] Instance outcome_bind : MBind outcome := fun A B k r => bind r k.

(** [d.get(key, default)] on a field that may be absent. *)
Definition get {A} (field : option A) (default : A) : A :=
  match field with
  | Some v => v
  | None => default
  end.

(** [len(l)] *)
Definition len {A} (l : list A) : Z := Z.of_nat (length l).

(** [str.isspace] on one ASCII character: tab, line feed, vertical tab,
    form feed, carriage return, the four separators 0x1c-0x1f, space. *)
Definition isspace (c : ascii) : bool :=
  let n := N_of_ascii c in
  ((9 <=? n) && (n <=? 13) || (28 <=? n) && (n <=? 32))%N.

(** The white space that [int] skips around an ASCII literal: tab, line
    feed, vertical tab, form feed, carriage return, space. *)
Definition isspace_int (c : ascii) : bool :=
  let n := N_of_ascii c in
  ((9 <=? n) && (n <=? 13) || (n =? 32))%N.

(** Dropping the leading and the trailing characters that satisfy
    [space]. *)
Fixpoint lstrip (space : ascii -> bool) (s : string) : string :=
  match s with
  | EmptyString => EmptyString
  | String c t => if space c then lstrip space t else s
  end.

Fixpoint rstrip (space : ascii -> bool) (s : string) : string :=
  match s with
  | EmptyString => EmptyString
  | String c t =>
      match rstrip space t with
      | EmptyString => if space c then EmptyString else String c EmptyString
      | t' => String c t'
      end
  end.

Definition strip_chars (space : ascii -> bool) (s : string) : string :=
  rstrip space (lstrip space s).

(** [s.strip()] *)
Definition strip (s : string) : string := strip_chars isspace s.

Definition upper_char (c : ascii) : ascii :=
  let n := N_of_ascii c in
  if ((97 <=? n) && (n <=? 122))%N then ascii_of_N (n - 32) else c.

Definition lower_char (c : ascii) : ascii :=
  let n := N_of_ascii c in
  if ((65 <=? n) && (n <=? 90))%N then ascii_of_N (n + 32) else c.

Fixpoint map_chars (f : ascii -> ascii) (s : string) : string :=
  match s with
  | EmptyString => EmptyString
  | String c t => String (f c) (map_chars f t)
  end.

(** [s.upper()] and [s.lower()] *)
Definition upper : string -> string := map_chars upper_char.
Definition lower : string -> string := map_chars lower_char.

(** [s[i]]: a negative index counts from the end, an index out of range
    raises [IndexError]. *)
Definition getitem (s : string) (i : Z) : outcome string :=
  let n := Z.of_nat (String.length s) in
  let j := if i <? 0 then i + n else i in
  if (0 <=? j) && (j <? n) then
    match String.get (Z.to_nat j) s with
    | Some c => Ok (String c EmptyString)
    | None => Raise IndexError
    end
  else Raise IndexError.

(** [s[1:]] *)
Definition slice_from_1 (s : string) : string :=
  match s with
  | EmptyString => EmptyString
  | String _ t => t
  end.

(** [s.index(sub)]: the least position where [sub] occurs, [ValueError]
    when there is none. *)
Fixpoint index_from (sub s : string) (i : Z) : outcome Z :=
  if String.prefix sub s then Ok i
  else match s with
       | EmptyString => Raise ValueError
       | String _ t => index_from sub t (i + 1)
       end.

Definition index (s sub : string) : outcome Z := index_from sub s 0.

(** [sys.get_int_max_str_digits()]: the greatest number of digits of a
    decimal text that CPython converts to or from an [int]; 4300 unless
    configured otherwise. *)
Definition int_max_str_digits : Z := 4300.

(** The decimal text of [n]: what [str(n)] and an f-string give for an
    [int] when they give a text. *)
Definition str_of_int (n : Z) : string := NilZero.string_of_int (Z.to_int n).

(** [str(n)], which is also how an f-string renders an [int]:
    [ValueError] when the text has more than [int_max_str_digits] digits;
    the sign is not counted. *)
Definition py_str (n : Z) : outcome string :=
  let s := str_of_int n in
  let sign := if n <? 0 then 1 else 0 in
  if int_max_str_digits <? Z.of_nat (String.length s) - sign
  then Raise ValueError
  else Ok s.

(** The digits of an integer literal as [int] reads them: at least one
    digit, single underscores allowed between digits only.  [after_digit]
    tells whether the previous character was a digit. *)
Fixpoint digits (s : string) (after_digit : bool) : option uint :=
  match s with
  | EmptyString => if after_digit then Some Nil else None
  | String c t =>
      if Ascii.eqb c "_" then
        if after_digit then digits t false else None
      else uint_of_char c (digits t true)
  end.

(** [int(s)] in base ten: surrounding white space is dropped, one sign may
    precede the digits.  A literal of more than [int_max_str_digits]
    digits, leading zeros counted, sign and underscores not, raises
    [ValueError] like a text that is no literal. *)
Definition int_of_str (s : string) : outcome Z :=
  let s := strip_chars isspace_int s in
  let parsed :=
    match s with
    | String c t =>
        if Ascii.eqb c "-" then Neg <$> digits t false
        else if Ascii.eqb c "+" then Pos <$> digits t false
        else Pos <$> digits s false
    | EmptyString => None
    end in
  match parsed with
  | Some d =>
      if int_max_str_digits <? Z.of_nat (nb_digits (Decimal.abs d))
      then Raise ValueError
      else Ok (Z.of_int d)
  | None => Raise ValueError
  end.

(** The string ["\n"]. *)
Definition newline : string := String "010" EmptyString.

(** [sep.join(l)] *)
Fixpoint join (sep : string) (l : list string) : string :=
  match l with
  | [] => EmptyString
  | [s] => s
  | s :: rest => s ++ sep ++ join sep rest
  end.

(** [l[-n:]] for a positive [n]: the last [n] elements, all of [l] when it
    has fewer. *)
Definition last_n {A} (n : nat) (l : list A) : list A :=
  drop (length l - n)%nat l.

(** [l.sort(key=key, reverse=True)] for integer keys.  Python's sort is
    stable, also under [reverse=True]: the result is the one arrangement of
    [l] with keys descending in which elements of equal key keep their
    order.  An element is put in front of the first element whose key is
    not greater than its own. *)
Fixpoint insert_reverse {A} (key : A -> Z) (x : A) (l : list A) : list A :=
  match l with
  | [] => [x]
  | y :: l' =>
      if key y <=? key x then x :: y :: l'
      else y :: insert_reverse key x l'
  end.

Definition sort_reverse {A} (key : A -> Z) (l : list A) : list A :=
  foldr (insert_reverse key) [] l.

(** [str(x)] for an optional string, as an f-string renders it. *)
Definition str_of_optional (x : option string) : string :=
  match x with
  | Some s => s
  | None => "None"
  end.

(** A [for] loop that builds a list and stops at the first exception. *)
Fixpoint for_each {A B} (f : A -> outcome B) (l : list A) : outcome (list B) :=
  match l with
  | [] => Ok []
  | x :: rest =>
      y ← f x;
      ys ← for_each f rest;
      Ok (y :: ys)
  end.

(** [range(n)] *)
Definition py_range (n : Z) : list Z := seqZ 0 n.

(** [l[i]] on a list: a negative index counts from the end, an index out
    of range raises [IndexError]. *)
Definition list_getitem {A} (l : list A) (i : Z) : outcome A :=
  let n := Z.of_nat (length l) in
  let j := if i <? 0 then i + n else i in
  if (0 <=? j) && (j <? n) then
    match l !! Z.to_nat j with
    | Some x => Ok x
    | None => Raise IndexError
    end
  else Raise IndexError.

(** Where the slice [l[start:]] begins: a negative [start] counts from the
    end, and the result is clipped to the list. *)
Definition slice_start (start : Z) (n : nat) : nat :=
  if start <? 0 then Z.to_nat (Z.of_nat n + start)
  else Z.to_nat (Z.min start (Z.of_nat n)).

(** [l[start:]] *)
Definition list_slice_from {A} (l : list A) (start : Z) : list A :=
  drop (slice_start start (length l)) l.

(** The characters of a string, each as a string; iterating over a [str]
    yields them. *)
Fixpoint str_chars (s : string) : list string :=
  match s with
  | EmptyString => []
  | String c t => String c EmptyString :: str_chars t
  end.

(** The concatenation of a list of strings. *)
Fixpoint str_concat (l : list string) : string :=
  match l with
  | [] => EmptyString
  | s :: rest => s ++ str_concat rest
  end.

(** [s[:stop]]: a negative [stop] counts from the end. *)
Definition str_slice_to (s : string) (stop : Z) : string :=
  let n := Z.of_nat (String.length s) in
  let k := if stop <? 0 then Z.max (n + stop) 0 else Z.min stop n in
  str_concat (take (Z.to_nat k) (str_chars s)).

(** [f"{n:2d}"]: the decimal text of [n], padded with spaces on the left
    to two characters. *)
Definition format_2d (n : Z) : string :=
  let s := str_of_int n in
  str_concat (replicate (2 - String.length s) " ") ++ s.

(** For [chr] and [ord], a [str] is the list of its code points.  [chr(i)]
    raises ([ValueError], or [OverflowError] for an [i] that is no C int)
    unless [i] is a code point; [None] stands for either. *)
Definition chr (i : Z) : option (list Z) :=
  if (0 <=? i) && (i <? 1114112) then Some [i] else None.

End Py.

Import Py.

(** ** sgf_reader.py: GTP coordinates *)

Module SgfReader.

(** The column letters of a board; there is no 'I'. *)
Definition letters : string := "ABCDEFGHJKLMNOPQRST".

(** The dataclass [GameState]. *)
Record GameState : Type := {
  board_size : Z;
  moves : list (string * option (Z * Z));
  current_player : string;
  komi : float;
  rules : string;
  black_captures : Z;
  white_captures : Z;
  board : list (list (option string));
  black_player : string;
  white_player : string;
  game_name : string;
  result : string;
}.

(** Convert board coordinates to GTP format (e.g., 'D4', 'Q16'). *)
Definition coord_to_gtp (row col board_size : Z) : outcome string :=
  letter ← getitem letters col;
  number ← py_str (board_size - row);
  Ok (letter ++ number).

(** Convert GTP point to board coordinates (row, col). *)
Definition gtp_to_coord (gtp_point : string) (board_size : Z) : outcome (Z * Z) :=
  first ← getitem gtp_point 0;
  col ← index letters (upper first);
  n ← int_of_str (slice_from_1 gtp_point);
  Ok (board_size - n, col).

(** Convert board coordinates to SGF format.  [None] when [chr]
    raises. *)
Definition coord_to_sgf (row col board_size : Z) : option (list Z) :=
  c ← chr (97 + col);
  r ← chr (97 + row);
  Some (c ++ r)%list.

(** Convert SGF point to board coordinates (row, col).  [None] when an
    index is out of range ([IndexError]). *)
Definition sgf_to_coord (sgf_point : list Z) : option (Z * Z) :=
  c ← sgf_point !! 0%nat;
  let col := c - 97 in
  r ← sgf_point !! 1%nat;
  let row := r - 97 in
  Some (row, col).

(** Check if a position is a star point (hoshi). *)
Definition is_star_point (row col size : Z) : bool :=
  let on (star_positions : list Z) :=
    bool_decide (row ∈ star_positions) && bool_decide (col ∈ star_positions) in
  if size =? 19 then on [3; 9; 15]
  else if size =? 13 then on [3; 6; 9]
  else if size =? 9 then on [2; 4; 6]
  else false.

(** The text of one cell of the board picture. *)
Definition cell_text (stone : option string) (row col size : Z) : string :=
  if decide (stone = Some "B") then "X "
  else if decide (stone = Some "W") then "O "
  else if is_star_point row col size then "+ "
  else ". ".

(** One turn of the outer loop of [board_to_ascii]: the line of [row]. *)
Definition board_row_line (state : GameState) (row : Z) : outcome string :=
  let size := board_size state in
  let row_num := size - row in
  let row_str := format_2d row_num ++ " " in
  cells ← for_each (fun col =>
             line ← list_getitem (board state) row;
             stone ← list_getitem line col;
             Ok (cell_text stone row col size))
           (py_range size);
  Ok (row_str ++ str_concat cells ++ format_2d row_num).

(** The list [lines] that [board_to_ascii] joins. *)
Definition board_lines (state : GameState) : outcome (list string) :=
  let size := board_size state in
  let letters := str_slice_to "ABCDEFGHJKLMNOPQRST" size in
  let header := "   " ++ join " " (str_chars letters) in
  rows ← for_each (board_row_line state) (py_range size);
  Ok ([header] ++ rows ++ [header])%list.

(** Convert the board state to ASCII art representation. *)
Definition board_to_ascii (state : GameState) : outcome string :=
  lines ← board_lines state;
  Ok (join newline lines).

(** The line of one move in [format_move_history]; [i] is its number. *)
Definition move_line (board_size : Z) (i : Z) (m : string * option (Z * Z))
  : outcome string :=
  let '(color, coord) := m in
  move_str ← match coord with
              | None => Ok "pass"
              | Some (row, col) => coord_to_gtp row col board_size
              end;
  let player := if decide (color = "B") then "Black" else "White" in
  number ← py_str i;
  Ok (number ++ ". " ++ player ++ ": " ++ move_str).

(** [for i, m in enumerate(l, start=start)], building a list. *)
Fixpoint for_each_enumerate {A B} (f : Z -> A -> outcome B) (start : Z)
    (l : list A) : outcome (list B) :=
  match l with
  | [] => Ok []
  | x :: rest =>
      y ← f start x;
      ys ← for_each_enumerate f (start + 1) rest;
      Ok (y :: ys)
  end.

(** The list [lines] that [format_move_history] joins, when there are
    moves. *)
Definition move_history_lines (state : GameState) (last_n : Z)
  : outcome (list string) :=
  let recent_moves := list_slice_from (moves state) (- last_n) in
  let start_num := len (moves state) - len recent_moves + 1 in
  for_each_enumerate (move_line (board_size state)) start_num recent_moves.

(** Format the last N moves as a readable string. *)
Definition format_move_history (state : GameState) (last_n : Z)
  : outcome string :=
  match moves state with
  | [] => Ok "No moves played yet."
  | _ =>
      lines ← move_history_lines state last_n;
      Ok (join newline lines)
  end.

End SgfReader.

Import SgfReader.

(** ** katago_client.py *)

Module KataGoClient.

(** *** The dataclasses *)

(** Information about a candidate move from KataGo analysis. *)
Record MoveInfo : Type := {
  move : string;
  visits : Z;
  winrate : float;
  score_lead : float;
  pv : list string;
  prior : float;
  utility : float;
}.

(** *** JSON objects of the analysis protocol

    A field holds [None] when the object has no such key. *)

(** An element of ["moveInfos"]. *)
Record RawMoveInfo : Type := {
  mi_move : option string;
  mi_visits : option Z;
  mi_winrate : option float;
  mi_scoreLead : option float;
  mi_pv : option (list string);
  mi_prior : option float;
  mi_utility : option float;
}.

(** The value of ["rootInfo"]. *)
Record RootInfo : Type := {
  ri_winrate : option float;
  ri_scoreLead : option float;
  ri_visits : option Z;
}.

(** The empty dict [{}] as a ["rootInfo"]. *)
Definition empty_dict : RootInfo :=
  {| ri_winrate := None; ri_scoreLead := None; ri_visits := None |}.

(** A reply of the engine. *)
Record Response : Type := {
  r_id : option string;
  r_turnNumber : option Z;
  r_rootInfo : option RootInfo;
  r_moveInfos : option (list RawMoveInfo);
  r_ownership : option (list float);
}.

(** What [json.loads] returns: a dict, or a value of another type (list,
    str, int, float, bool, None), which has no [get] method. *)
Inductive json : Type :=
  | JObject (o : Response)
  | JOther.

(** A query sent to the engine; ["id"] may be missing until [_send_query]
    has set it. *)
Record Query : Type := {
  q_id : option string;
  q_moves : list (string * string);
  q_initialStones : list (string * string);
  q_rules : string;
  q_komi : float;
  q_boardXSize : Z;
  q_boardYSize : Z;
  q_analyzeTurns : list Z;
  q_maxVisits : Z;
  q_analysisPVLen : Z;
  q_includeOwnership : bool;
  q_includePolicy : bool;
}.

Definition set_q_id (v : option string) (q : Query) : Query :=
  {| q_id := v; q_moves := q_moves q; q_initialStones := q_initialStones q;
     q_rules := q_rules q; q_komi := q_komi q; q_boardXSize := q_boardXSize q;
     q_boardYSize := q_boardYSize q; q_analyzeTurns := q_analyzeTurns q;
     q_maxVisits := q_maxVisits q; q_analysisPVLen := q_analysisPVLen q;
     q_includeOwnership := q_includeOwnership q;
     q_includePolicy := q_includePolicy q |}.

(** Result of KataGo position analysis. *)
Record AnalysisResult : Type := {
  id : string;
  turn_number : Z;
  current_player : string;
  root_winrate : float;
  root_score_lead : float;
  root_visits : Z;
  move_infos : list MoveInfo;
  ownership : option (list float);
  raw_response : option Response;
}.

(** *** The protocol codec *)

(** The dict [rules_map] of [_build_query]. *)
Definition rules_map : gmap string string :=
  list_to_map
    [ ("chinese", "chinese");
      ("japanese", "japanese");
      ("korean", "korean");
      ("aga", "aga");
      ("nz", "nz");
      ("tromp-taylor", "tromp-taylor");
      ("stone-scoring", "stone-scoring") ].

(** One step of the loop of [_build_query] over [state.moves]. *)
Definition encode_move (board_size : Z) (m : string * option (Z * Z))
  : outcome (string * string) :=
  let '(color, coord) := m in
  match coord with
  | None => Ok (color, "pass")
  | Some (row, col) =>
      move_str ← coord_to_gtp row col board_size;
      Ok (color, move_str)
  end.

(** Build a KataGo analysis query from game state.  [uuid] is the value
    of [str(uuid.uuid4())]. *)
Definition _build_query (uuid : string) (state : GameState)
    (max_visits : Z) (include_ownership include_policy : bool)
    (analysis_pv_len : Z) : outcome Query :=
  moves ← for_each (encode_move (board_size state)) (SgfReader.moves state);
  let initial_stones := [] in
  let rules := get (rules_map !! lower (SgfReader.rules state)) "chinese" in
  Ok {| q_id := Some uuid;
        q_moves := moves;
        q_initialStones := initial_stones;
        q_rules := rules;
        q_komi := komi state;
        q_boardXSize := board_size state;
        q_boardYSize := board_size state;
        q_analyzeTurns := [len moves];
        q_maxVisits := max_visits;
        q_analysisPVLen := analysis_pv_len;
        q_includeOwnership := include_ownership;
        q_includePolicy := include_policy |}.

(** The body of the loop of [_parse_response] over [moveInfos]. *)
Definition parse_move_info (mi : RawMoveInfo) : MoveInfo :=
  {| move := get (mi_move mi) "";
     visits := get (mi_visits mi) 0;
     winrate := get (mi_winrate mi) 0.5%float;
     score_lead := get (mi_scoreLead mi) 0.0%float;
     pv := get (mi_pv mi) [];
     prior := get (mi_prior mi) 0.0%float;
     utility := get (mi_utility mi) 0.0%float |}.

(** Parse KataGo response into AnalysisResult. *)
Definition _parse_response (response : Response) (state : GameState)
  : AnalysisResult :=
  let root_info := get (r_rootInfo response) empty_dict in
  let move_infos_raw := get (r_moveInfos response) [] in
  let move_infos := parse_move_info <$> move_infos_raw in
  let move_infos := sort_reverse visits move_infos in
  {| id := get (r_id response) "";
     turn_number := get (r_turnNumber response) (len (SgfReader.moves state));
     current_player := SgfReader.current_player state;
     root_winrate := get (ri_winrate root_info) 0.5%float;
     root_score_lead := get (ri_scoreLead root_info) 0.0%float;
     root_visits := get (ri_visits root_info) 0;
     move_infos := move_infos;
     ownership := r_ownership response;
     raw_response := Some response |}.

(** *** The client and the engine process *)

(** The [subprocess.Popen] object: the command line it was started with,
    whether the process still runs ([poll()] is [None]), and the lines
    written to its input and flushed. *)
Record Process : Type := {
  cmd : list string;
  running : bool;
  stdin : list string;
}.

(** The attributes of a [KataGoClient], and [events], the store of the
    [threading.Event] objects made so far: the event of address [h] is set
    when [events !! h = Some true].  [pending_requests] maps a request
    identifier to the address of its event.  [_reader_thread] and
    [_stderr_thread] tell whether the thread has been started. *)
Record Client : Type := {
  katago_path : string;
  model_path : string;
  config_path : string;
  analysis_threads : Z;
  debug : bool;
  process : option Process;
  pending_requests : gmap string nat;
  responses : gmap string Response;
  _reader_thread : bool;
  _stderr_thread : bool;
  _startup_error : option string;
  _stderr_lines : list string;
  events : list bool;
}.

Definition set_process (v : option Process) (c : Client) : Client :=
  {| katago_path := katago_path c; model_path := model_path c;
     config_path := config_path c; analysis_threads := analysis_threads c;
     debug := debug c; process := v;
     pending_requests := pending_requests c; responses := responses c;
     _reader_thread := _reader_thread c; _stderr_thread := _stderr_thread c;
     _startup_error := _startup_error c; _stderr_lines := _stderr_lines c;
     events := events c |}.

Definition set_pending_requests (v : gmap string nat) (c : Client) : Client :=
  {| katago_path := katago_path c; model_path := model_path c;
     config_path := config_path c; analysis_threads := analysis_threads c;
     debug := debug c; process := process c;
     pending_requests := v; responses := responses c;
     _reader_thread := _reader_thread c; _stderr_thread := _stderr_thread c;
     _startup_error := _startup_error c; _stderr_lines := _stderr_lines c;
     events := events c |}.

Definition set_responses (v : gmap string Response) (c : Client) : Client :=
  {| katago_path := katago_path c; model_path := model_path c;
     config_path := config_path c; analysis_threads := analysis_threads c;
     debug := debug c; process := process c;
     pending_requests := pending_requests c; responses := v;
     _reader_thread := _reader_thread c; _stderr_thread := _stderr_thread c;
     _startup_error := _startup_error c; _stderr_lines := _stderr_lines c;
     events := events c |}.

Definition set_threads (v : bool) (c : Client) : Client :=
  {| katago_path := katago_path c; model_path := model_path c;
     config_path := config_path c; analysis_threads := analysis_threads c;
     debug := debug c; process := process c;
     pending_requests := pending_requests c; responses := responses c;
     _reader_thread := v; _stderr_thread := v;
     _startup_error := _startup_error c; _stderr_lines := _stderr_lines c;
     events := events c |}.

Definition set_startup_error (v : option string) (c : Client) : Client :=
  {| katago_path := katago_path c; model_path := model_path c;
     config_path := config_path c; analysis_threads := analysis_threads c;
     debug := debug c; process := process c;
     pending_requests := pending_requests c; responses := responses c;
     _reader_thread := _reader_thread c; _stderr_thread := _stderr_thread c;
     _startup_error := v; _stderr_lines := _stderr_lines c;
     events := events c |}.

Definition set_stderr_lines (v : list string) (c : Client) : Client :=
  {| katago_path := katago_path c; model_path := model_path c;
     config_path := config_path c; analysis_threads := analysis_threads c;
     debug := debug c; process := process c;
     pending_requests := pending_requests c; responses := responses c;
     _reader_thread := _reader_thread c; _stderr_thread := _stderr_thread c;
     _startup_error := _startup_error c; _stderr_lines := v;
     events := events c |}.

Definition set_events (v : list bool) (c : Client) : Client :=
  {| katago_path := katago_path c; model_path := model_path c;
     config_path := config_path c; analysis_threads := analysis_threads c;
     debug := debug c; process := process c;
     pending_requests := pending_requests c; responses := responses c;
     _reader_thread := _reader_thread c; _stderr_thread := _stderr_thread c;
     _startup_error := _startup_error c; _stderr_lines := _stderr_lines c;
     events := v |}.

(** [KataGoClient.__init__] *)
Definition __init__ (katago_path model_path config_path : string)
    (analysis_threads : Z) (debug : bool) : Client :=
  {| katago_path := katago_path; model_path := model_path;
     config_path := config_path; analysis_threads := analysis_threads;
     debug := debug; process := None;
     pending_requests := ∅; responses := ∅;
     _reader_thread := false; _stderr_thread := false;
     _startup_error := None; _stderr_lines := [];
     events := [] |}.

(** [event.is_set()] and [event.set()] for the event of address [h]. *)
Definition is_set (h : nat) (c : Client) : bool :=
  match events c !! h with
  | Some b => b
  | None => false
  end.

Definition event_set (h : nat) (c : Client) : Client :=
  set_events (<[h := true]> (events c)) c.

(** What the world answers to one call of a method: whether a path
    exists, the exception [Popen] raises if it raises one, whether the
    new process still runs after the grace period, what its error stream
    holds if it does not, the identifiers [uuid.uuid4()] returns, and how
    writing a line to the process goes. *)
Record World : Type := {
  path_exists : string -> bool;
  popen_error : option string;
  alive_after_grace : bool;
  stderr_read : string;
  uuid_build : string;
  uuid_send : string;
  write_outcome : outcome unit;
}.

(** Check if the KataGo process is alive. *)
Definition _is_alive (c : Client) : bool :=
  match process c with
  | Some p => running p
  | None => false
  end.

(** Start the KataGo analysis engine process. *)
Definition start (w : World) (c : Client) : outcome unit * Client :=
  if _is_alive c then (Ok (), c)
  else
    let c := set_startup_error None c in
    if negb (path_exists w (katago_path c)) then
      let msg := "KataGo executable not found: " ++ katago_path c in
      (Raise (FileNotFoundError msg), set_startup_error (Some msg) c)
    else if negb (path_exists w (model_path c)) then
      let msg := "KataGo model not found: " ++ model_path c in
      (Raise (FileNotFoundError msg), set_startup_error (Some msg) c)
    else
      let cmd := [katago_path c; "analysis"; "-model"; model_path c;
                  "-config"; config_path c;
                  "-analysis-threads"; str_of_int (analysis_threads c)] in
      match popen_error w with
      | Some e =>
          let msg := "Failed to start KataGo: " ++ e in
          (Raise (RuntimeError msg), set_startup_error (Some msg) c)
      | None =>
          let p := {| cmd := cmd; running := alive_after_grace w;
                      stdin := [] |} in
          let c := set_process (Some p) c in
          if negb (running p) then
            let msg := "KataGo process died immediately. Stderr: "
                       ++ stderr_read w in
            (Raise (RuntimeError msg), set_startup_error (Some msg) c)
          else (Ok (), set_threads true c)
      end.

(** One turn of the loop of [_read_stderr], on what [readline()] gave (a
    line, or an exception); [true] when the loop goes on. *)
Definition _read_stderr_step (read : outcome string) (c : Client)
  : bool * Client :=
  match read with
  | Raise _ => (false, c)
  | Ok line =>
      if decide (line = "") then (false, c)
      else (true, set_stderr_lines (_stderr_lines c ++ [strip line]) c)
  end.

(** Background thread to read stderr from KataGo: the loop, over what the
    successive calls of [readline()] give. *)
Fixpoint _read_stderr (reads : list (outcome string)) (c : Client) : Client :=
  match process c, reads with
  | Some _, read :: rest =>
      let '(go_on, c') := _read_stderr_step read c in
      if go_on then _read_stderr rest c' else c'
  | _, _ => c
  end.

(** Stop the KataGo process. *)
Definition stop (c : Client) : Client :=
  match process c with
  | Some _ => set_process None c
  | None => c
  end.

Section Json.

(** [json.loads] and [json.dumps] come from Python's library. *)
Variable json_loads : string -> outcome json.
Variable json_dumps : Query -> string.

(** One turn of the loop of [_read_responses], on what [readline()] gave
    (a line, or an exception); [true] when the loop goes on ([continue]
    or the end of the body), [false] on [break].  The two dictionary
    updates are made under the lock, in one step. *)
Definition _read_responses_step (read : outcome string) (c : Client)
  : bool * Client :=
  match read with
  | Raise _ => (false, c)
  | Ok line =>
      if decide (line = "") then (false, c)
      else
        let line := strip line in
        if decide (line = "") then (true, c)
        else
          match json_loads line with
          | Ok (JObject response) =>
              match r_id response with
              | Some request_id =>
                  if decide (request_id = "") then (true, c)
                  else
                    let c := set_responses
                               (<[request_id := response]> (responses c)) c in
                    match pending_requests c !! request_id with
                    | Some event => (true, event_set event c)
                    | None => (true, c)
                    end
              | None => (true, c)
              end
          | Ok JOther => (false, c)
          | Raise JSONDecodeError => (true, c)
          | Raise _ => (false, c)
          end
  end.

(** Background thread to read responses from KataGo: the loop, over what
    the successive calls of [readline()] give.  The loop ends when there
    is no process, at the end of the stream, or on [break]. *)
Fixpoint _read_responses (reads : list (outcome string)) (c : Client)
  : Client :=
  match process c, reads with
  | Some _, read :: rest =>
      let '(go_on, c') := _read_responses_step read c in
      if go_on then _read_responses rest c' else c'
  | _, _ => c
  end.

(** Send a query to KataGo and return the request ID. *)
Definition _send_query (w : World) (query : Query) (c : Client)
  : outcome string * Client :=
  let '(started, c) :=
    if negb (_is_alive c) then start w c else (Ok (), c) in
  match started with
  | Raise e => (Raise e, c)
  | Ok _ =>
      if negb (_is_alive c) then
        (Raise (RuntimeError ("KataGo process failed to start: "
                              ++ str_of_optional (_startup_error c))), c)
      else
        let request_id := get (q_id query) (uuid_send w) in
        let query := set_q_id (Some request_id) query in
        let event := length (events c) in
        let c := set_events (events c ++ [false]) c in
        let c := set_pending_requests
                   (<[request_id := event]> (pending_requests c)) c in
        let query_json := json_dumps query in
        match process c with
        | None => (Raise AttributeError, c)
        | Some p =>
            match write_outcome w with
            | Ok _ =>
                let p := {| cmd := cmd p; running := running p;
                            stdin := stdin p ++ [query_json ++ newline] |} in
                (Ok request_id, set_process (Some p) c)
            | Raise e =>
                if is_OSError e then
                  let stderr_output :=
                    match _stderr_lines c with
                    | [] => ""
                    | _ => join newline (last_n 20 (_stderr_lines c))
                    end in
                  let error_msg :=
                    "KataGo process died (broken pipe). Recent stderr:"
                    ++ newline ++ stderr_output in
                  let c := set_pending_requests
                             (delete request_id (pending_requests c)) c in
                  (Raise (RuntimeError error_msg), c)
                else (Raise e, c)
            end
        end
  end.

(** What goes on in the other threads while a caller waits. *)
Inductive activity : Type :=
  | Stdout (read : outcome string)
  | Stderr (read : outcome string).

Definition run_activity (a : activity) (c : Client) : Client :=
  match a with
  | Stdout read =>
      match process c with
      | Some _ => snd (_read_responses_step read c)
      | None => c
      end
  | Stderr read =>
      match process c with
      | Some _ => snd (_read_stderr_step read c)
      | None => c
      end
  end.

(** [event.wait(timeout)] on the event of address [h]: [during] is what
    the reader threads do, in order, until the timeout has elapsed.  The
    wait returns [true] as soon as the event is set, and [false] when it
    still is not after all of [during]. *)
Fixpoint event_wait (h : nat) (during : list activity) (c : Client)
  : bool * Client :=
  if is_set h c then (true, c)
  else match during with
       | [] => (false, c)
       | a :: rest => event_wait h rest (run_activity a c)
       end.

(** Wait for a response to a specific request. *)
Definition _wait_for_response (request_id : string)
    (during : list activity) (c : Client) : option Response * Client :=
  match pending_requests c !! request_id with
  | None => (None, c)
  | Some event =>
      let '(signaled, c) := event_wait event during c in
      if signaled then
        (responses c !! request_id,
         set_responses (delete request_id (responses c)) c)
      else (None, c)
  end.

(** Analyze a position and return the analysis result. *)
Definition analyze_position (w : World) (during : list activity)
    (state : GameState) (max_visits : Z)
    (include_ownership include_policy : bool) (analysis_pv_len : Z)
    (c : Client) : outcome (option AnalysisResult) * Client :=
  match _build_query (uuid_build w) state max_visits include_ownership
          include_policy analysis_pv_len with
  | Raise e => (Raise e, c)
  | Ok query =>
      match _send_query w query c with
      | (Raise e, c) => (Raise e, c)
      | (Ok request_id, c) =>
          match _wait_for_response request_id during c with
          | (None, c) => (Ok None, c)
          | (Some response, c) =>
              (Ok (Some (_parse_response response state)), c)
          end
      end
  end.

End Json.

(** The two characters of a point of the territory map, for an ownership
    value: comparisons of floats, false on a NaN. *)
Definition ownership_text (own : float) : string :=
  if (0.6 <? own)%float then "B "
  else if (0.2 <? own)%float then "b "
  else if (own <? -0.6)%float then "W "
  else if (own <? -0.2)%float then "w "
  else ". ".

(** One turn of the outer loop of [format_ownership_map]: the line of
    [row]. *)
Definition ownership_row_line (ownership : list float) (board_size row : Z)
  : outcome string :=
  let row_num := board_size - row in
  let row_str := format_2d row_num ++ " " in
  cells ← for_each (fun col =>
             let idx := row * board_size + col in
             own ← list_getitem ownership idx;
             Ok (ownership_text own))
           (py_range board_size);
  Ok (row_str ++ str_concat cells ++ format_2d row_num).

(** The list [lines] that [format_ownership_map] joins, for data of the
    right length. *)
Definition ownership_lines (ownership : list float) (board_size : Z)
  : outcome (list string) :=
  let letters := str_slice_to "ABCDEFGHJKLMNOPQRST" board_size in
  let header := "   " ++ join " " (str_chars letters) in
  rows ← for_each (ownership_row_line ownership board_size)
           (py_range board_size);
  Ok (["=== Territory Map ===";
       "(B = Black territory, W = White territory, . = neutral)";
       "";
       header] ++ rows ++ [header])%list.

(** Format ownership data as ASCII territory map. *)
Definition format_ownership_map (ownership : list float) (board_size : Z)
  : outcome string :=
  if bool_decide (length ownership = 0%nat)
     || negb (len ownership =? board_size * board_size)
  then Ok "Ownership data not available"
  else
    lines ← ownership_lines ownership board_size;
    Ok (join newline lines).

End KataGoClient.

(** ** server.py *)

Module Server.

Import KataGoClient.

Section Config.

(** The settings of [config.py], read from the environment. *)
Variables KATAGO_PATH KATAGO_MODEL KATAGO_CONFIG : string.

(** Get or create the KataGo client.  [_katago_client] is the global
    variable; the second component of the result is its value after the
    call.  The variable is assigned before [start] is called. *)
Definition get_katago_client (w : World) (_katago_client : option Client)
  : outcome Client * option Client :=
  match _katago_client with
  | None =>
      let c := __init__ KATAGO_PATH KATAGO_MODEL KATAGO_CONFIG 2 false in
      let '(started, c) := start w c in
      match started with
      | Ok _ => (Ok c, Some c)
      | Raise e => (Raise e, Some c)
      end
  | Some c => (Ok c, Some c)
  end.

End Config.

End Server.

Import KataGoClient.

(** * Vocabulary of the statements *)

(** No character of [s] satisfies [space]. *)
Fixpoint no_space (space : ascii -> bool) (s : string) : bool :=
  match s with
  | EmptyString => true
  | String c t => negb (space c) && no_space space t
  end.

(** The names of the rule sets that [_build_query] knows. *)
Definition rules_names : list string :=
  ["chinese"; "japanese"; "korean"; "aga"; "nz"; "tromp-taylor";
   "stone-scoring"].

(** The letter of a column: 'A' to 'H' for the columns 0 to 7, 'J' to 'T'
    for the columns 8 to 18. *)
Definition column_letter (col : Z) : string :=
  String (ascii_of_N (Z.to_N (if col <? 8 then 65 + col else 66 + col)))
    EmptyString.

(** [n] has at most [int_max_str_digits] digits: CPython converts it to
    its decimal text. *)
Definition within_str_limit (n : Z) : Prop :=
  Z.abs n < 10 ^ int_max_str_digits.

(** [a] may stand before [b] in a list sorted by [key], greatest first. *)
Definition descending {A} (key : A -> Z) (a b : A) : Prop := key b <= key a.

(** Every event of the table has been made, and two identifiers never
    share an event: each call of [_send_query] makes a new one. *)
Definition wf (c : Client) : Prop :=
  map_Forall (fun _ h => (h < length (events c))%nat) (pending_requests c) /\
  map_Forall (fun r1 h1 =>
    map_Forall (fun r2 h2 => h1 = h2 -> r1 = r2) (pending_requests c))
    (pending_requests c).

#[global] Instance wf_dec c : Decision (wf c).
Proof. unfold wf. apply _. Defined.

(** Two states agree off the identifier [rid] and the event [h] when they
    have the same process and the same table, the same cached reply for
    every identifier but [rid] and the same flag for every event but
    [h]. *)
Definition agree_off (rid : string) (h : nat) (c c' : Client) : Prop :=
  process c = process c' /\
  pending_requests c = pending_requests c' /\
  (forall k, k <> rid -> responses c !! k = responses c' !! k) /\
  (forall i, i <> h -> events c !! i = events c' !! i).

(** Every cached reply is stored under the identifier it carries. *)
Definition cache_ok (c : Client) : Prop :=
  map_Forall (fun k r => r_id r = Some k) (responses c).

#[global] Instance cache_ok_dec c : Decision (cache_ok c).
Proof. unfold cache_ok. apply _. Defined.

(** The state after the reader threads have done [l], in order. *)
Definition run_activities (json_loads : string -> outcome json)
    (l : list activity) (c : Client) : Client :=
  foldl (fun c a => run_activity json_loads a c) c l.

(** The activity [a] is not the reading of a reply that carries [rid]. *)
Definition no_reply_for (json_loads : string -> outcome json) (rid : string)
    (a : activity) : Prop :=
  forall line reply,
    a = Stdout (Ok line) ->
    json_loads (strip line) = Ok (JObject reply) ->
    r_id reply <> Some rid.

(** The lines a reader loop gets before the end of the stream (an empty
    read) or an exception. *)
Fixpoint lines_before_end (reads : list (outcome string)) : list string :=
  match reads with
  | Ok line :: rest =>
      if decide (line = "") then [] else line :: lines_before_end rest
  | _ => []
  end.

(** [i] is a Unicode code point. *)
Definition is_code_point (i : Z) : Prop := 0 <= i < 1114112.

(** The board of [state] has [board_size] rows of [board_size] cells. *)
Definition square_board (state : GameState) : Prop :=
  0 <= board_size state /\
  length (board state) = Z.to_nat (board_size state) /\
  Forall (fun line => length line = Z.to_nat (board_size state)) (board state).

#[global] Instance square_board_dec state : Decision (square_board state).
Proof. unfold square_board. apply _. Defined.

(** The states a client can be in: a new client, and what the methods,
    the reader threads and the exit of the process make of a state. *)
Inductive reachable (json_loads : string -> outcome json)
    (json_dumps : Query -> string) : Client -> Prop :=
  | reach_init kp mp cp n d :
      reachable json_loads json_dumps (__init__ kp mp cp n d)
  | reach_start w c :
      reachable json_loads json_dumps c ->
      reachable json_loads json_dumps (snd (start w c))
  | reach_stop c :
      reachable json_loads json_dumps c ->
      reachable json_loads json_dumps (stop c)
  | reach_exit c p :
      reachable json_loads json_dumps c ->
      process c = Some p ->
      reachable json_loads json_dumps
        (set_process
           (Some {| cmd := cmd p; running := false; stdin := stdin p |}) c)
  | reach_send w query c :
      reachable json_loads json_dumps c ->
      reachable json_loads json_dumps
        (snd (_send_query json_dumps w query c))
  | reach_wait rid during c :
      reachable json_loads json_dumps c ->
      reachable json_loads json_dumps
        (snd (_wait_for_response json_loads rid during c))
  | reach_activity a c :
      reachable json_loads json_dumps c ->
      reachable json_loads json_dumps (run_activity json_loads a c)
  | reach_analyze w during state max_visits include_ownership
      include_policy analysis_pv_len c :
      reachable json_loads json_dumps c ->
      reachable json_loads json_dumps
        (snd (analyze_position json_loads json_dumps w during state
                max_visits include_ownership include_policy
                analysis_pv_len c)).

(** * Concrete positions, replies, worlds and clients *)

(** An empty 19x19 game, as [GameState()] builds it. *)
Definition new_game : GameState :=
  {| board_size := 19; moves := []; SgfReader.current_player := "B";
     komi := 7.5%float; rules := "chinese";
     black_captures := 0; white_captures := 0;
     board := replicate 19 (replicate 19 None);
     black_player := "Black"; white_player := "White";
     game_name := ""; result := "" |}.

(** The game [state] with the rules string [r]. *)
Definition with_rules (r : string) (state : GameState) : GameState :=
  {| board_size := board_size state; moves := moves state;
     SgfReader.current_player := SgfReader.current_player state;
     komi := komi state; rules := r;
     black_captures := black_captures state;
     white_captures := white_captures state; board := board state;
     black_player := black_player state; white_player := white_player state;
     game_name := game_name state; result := result state |}.

(** A reply that is the empty object. *)
Definition empty_reply : Response :=
  {| r_id := None; r_turnNumber := None; r_rootInfo := None;
     r_moveInfos := None; r_ownership := None |}.

(** A reply that carries only its identifier. *)
Definition reply_of (rid : string) : Response :=
  {| r_id := Some rid; r_turnNumber := None; r_rootInfo := None;
     r_moveInfos := None; r_ownership := None |}.

(** The reply of the scenario of the specification: two candidate moves,
    the less visited one first. *)
Definition scenario_reply : Response :=
  {| r_id := Some "q1";
     r_turnNumber := None;
     r_rootInfo := Some {| ri_winrate := Some 0.62%float;
                           ri_scoreLead := Some 3.5%float;
                           ri_visits := Some 100 |};
     r_moveInfos := Some
       [ {| mi_move := Some "D4"; mi_visits := Some 50;
            mi_winrate := Some 0.6%float; mi_scoreLead := None;
            mi_pv := None; mi_prior := None; mi_utility := None |};
         {| mi_move := Some "Q16"; mi_visits := Some 80;
            mi_winrate := Some 0.65%float; mi_scoreLead := None;
            mi_pv := None; mi_prior := None; mi_utility := None |} ];
     r_ownership := None |}.

(** A stand-in for [json.loads] on a few lines: the replies to "u1" and
    "u2", an object without identifier, an array; any other text is not
    JSON. *)
Definition loads_test (s : string) : outcome json :=
  if decide (s = "reply u1") then Ok (JObject (reply_of "u1"))
  else if decide (s = "reply u2") then Ok (JObject (reply_of "u2"))
  else if decide (s = "{}") then Ok (JObject empty_reply)
  else if decide (s = "[]") then Ok JOther
  else Raise JSONDecodeError.



(** A stand-in for [json.dumps]. *)
Definition dumps_test (q : Query) : string := "query " ++ get (q_id q) "".

(** A world where every path exists but [missing], the engine starts and
    writes go through. *)
Definition world_without (missing : string) : World :=
  {| path_exists := fun p => bool_decide (p <> missing);
     popen_error := None;
     alive_after_grace := true;
     stderr_read := "";
     uuid_build := "u1";
     uuid_send := "u2";
     write_outcome := Ok () |}.

(** A world where all goes well. *)
Definition world_ok : World := world_without "".

(** A world where the write to the process fails. *)
Definition world_broken_pipe : World :=
  {| path_exists := fun _ => true;
     popen_error := None;
     alive_after_grace := true;
     stderr_read := "";
     uuid_build := "u1";
     uuid_send := "u2";
     write_outcome := Raise BrokenPipeError |}.

(** A client as [server.py] makes it. *)
Definition c_new : Client :=
  __init__ "/usr/local/bin/katago" "/usr/share/katago/model.bin.gz"
    "/etc/katago/analysis.cfg" 2 false.

(** A client whose process runs, with two queries sent and no reply
    yet, and two lines read from the error stream. *)
Definition c_two_pending : Client :=
  set_stderr_lines ["loading model"; "out of memory"]
    (set_events [false; false]
       (set_pending_requests {[ "u1" := 0%nat; "u2" := 1%nat ]}
          (set_process
             (Some {| cmd := ["katago"]; running := true;
                      stdin := ["query u1"; "query u2"] |})
             c_new))).

(** A world where the write to the process fails on a closed stream. *)
Definition world_closed_stream : World :=
  {| path_exists := fun _ => true;
     popen_error := None;
     alive_after_grace := true;
     stderr_read := "";
     uuid_build := "u1";
     uuid_send := "u2";
     write_outcome := Raise ValueError |}.

(** A world where the engine exits at once. *)
Definition world_dies : World :=
  {| path_exists := fun _ => true;
     popen_error := None;
     alive_after_grace := false;
     stderr_read := "no GPU";
     uuid_build := "u1";
     uuid_send := "u2";
     write_outcome := Ok () |}.

(** A query for an empty board, with and without identifier. *)
Definition query_of (i : option string) : Query :=
  {| q_id := i; q_moves := []; q_initialStones := [];
     q_rules := "chinese"; q_komi := 7.5%float;
     q_boardXSize := 19; q_boardYSize := 19;
     q_analyzeTurns := [0]; q_maxVisits := 100;
     q_analysisPVLen := 10; q_includeOwnership := true;
     q_includePolicy := false |}.

(** A 9x9 game after Black G7 and White C3, with the two stones on the
    board. *)
Definition game_9 : GameState :=
  {| board_size := 9;
     moves := [("B", Some (2, 6)); ("W", Some (6, 2))];
     SgfReader.current_player := "B";
     komi := 7.5%float; rules := "japanese";
     black_captures := 0; white_captures := 0;
     board := <[2%nat := <[6%nat := Some "B"]> (replicate 9 None)]>
                (<[6%nat := <[2%nat := Some "W"]> (replicate 9 None)]>
                   (replicate 9 (replicate 9 None)));
     black_player := "Black"; white_player := "White";
     game_name := ""; result := "" |}.

(** A game on a 25x25 board with a move in the 20th column. *)
Definition game_25 : GameState :=
  {| board_size := 25;
     moves := [("B", Some (3, 19))];
     SgfReader.current_player := "W";
     komi := 7.5%float; rules := "chinese";
     black_captures := 0; white_captures := 0;
     board := replicate 25 (replicate 25 None);
     black_player := "Black"; white_player := "White";
     game_name := ""; result := "" |}.

(** A client whose process runs, with nothing pending. *)
Definition c_running : Client :=
  set_process (Some {| cmd := ["katago"]; running := true; stdin := [] |})
    c_new.

(** * Properties *)

(** ** Integers and their decimal text *)

Lemma lstrip_no_space space s :
  no_space space s = true -> lstrip space s = s.
Proof.
  destruct s as [|c t]; simpl; [done|].
  intros [Hc _]%andb_prop. by destruct (space c).
Qed.

Lemma rstrip_no_space space s :
  no_space space s = true -> rstrip space s = s.
Proof.
  induction s as [|c t IH]; simpl; [done|].
  intros [Hc Ht]%andb_prop. rewrite (IH Ht).
  destruct t; [|done]. by destruct (space c).
Qed.

Lemma strip_no_space space s :
  no_space space s = true -> strip_chars space s = s.
Proof.
  intros H. unfold strip_chars. rewrite (lstrip_no_space _ _ H).
  by apply rstrip_no_space.
Qed.

Lemma no_space_string_of_uint d :
  no_space isspace_int (NilEmpty.string_of_uint d) = true.
Proof. induction d; simpl; auto. Qed.

Lemma digits_string_of_uint d :
  digits (NilEmpty.string_of_uint d) true = Some d.
Proof. induction d; simpl; rewrite ?IHd; done. Qed.

Lemma digits_string_of_uint_first d b :
  d <> Nil -> digits (NilEmpty.string_of_uint d) b = Some d.
Proof.
  intros Hd. destruct d; [done|..]; simpl;
    by rewrite digits_string_of_uint.
Qed.

(** The number of digits of a text and the size of the number. *)
Lemma length_string_of_uint d :
  String.length (NilEmpty.string_of_uint d) = nb_digits d.
Proof. induction d; simpl; by rewrite ?IHd. Qed.

Lemma of_uint_acc_bounds d acc :
  Z.pos acc * 10 ^ Z.of_nat (nb_digits d) <= Z.pos (Pos.of_uint_acc d acc)
  < (Z.pos acc + 1) * 10 ^ Z.of_nat (nb_digits d).
Proof.
  revert acc.
  induction d as [|d IH|d IH|d IH|d IH|d IH|d IH|d IH|d IH|d IH|d IH];
    intros acc; simpl Pos.of_uint_acc; simpl nb_digits;
    [simpl; lia|..];
    rewrite Nat2Z.inj_succ, Z.pow_succ_r by lia;
    match goal with
    | |- context [Pos.of_uint_acc d ?a] => specialize (IH a)
    end;
    assert (0 < 10 ^ Z.of_nat (nb_digits d)) by (apply Z.pow_pos_nonneg; lia);
    nia.
Qed.

(** A text of [k] digits, leading zeros among them, denotes a number
    below [10 ^ k]. *)
Lemma of_uint_bound d :
  Z.of_N (Pos.of_uint d) < 10 ^ Z.of_nat (nb_digits d).
Proof.
  induction d as [|d IH|d IH|d IH|d IH|d IH|d IH|d IH|d IH|d IH|d IH];
    simpl Pos.of_uint; simpl nb_digits;
    [simpl; lia|..];
    rewrite Nat2Z.inj_succ, Z.pow_succ_r by lia;
    assert (0 < 10 ^ Z.of_nat (nb_digits d)) by (apply Z.pow_pos_nonneg; lia);
    [lia|..];
    match goal with
    | |- context [Pos.of_uint_acc d ?a] =>
        pose proof (of_uint_acc_bounds d a)
    end; simpl Z.of_N; nia.
Qed.

(** The text of a positive number has no leading zero: a number of [k]
    digits is at least [10 ^ (k - 1)]. *)
Lemma to_uint_bounds p :
  10 ^ (Z.of_nat (nb_digits (Pos.to_uint p)) - 1) <= Z.pos p
  < 10 ^ Z.of_nat (nb_digits (Pos.to_uint p)).
Proof.
  pose proof (DecimalPos.Unsigned.of_to p) as Hof.
  pose proof (DecimalPos.Unsigned.to_of (Pos.to_uint p)) as Hto.
  rewrite Hof in Hto. simpl N.to_uint in Hto.
  pose proof (DecimalPos.Unsigned.to_uint_nonzero p) as Hnz.
  pose proof (of_uint_bound (Pos.to_uint p)) as Hub.
  rewrite Hof in Hub. simpl Z.of_N in Hub. split; [|done].
  destruct (Pos.to_uint p) as [|d|d|d|d|d|d|d|d|d|d] eqn:E;
    [simpl in Hof; done
    |
    |simpl nb_digits; rewrite Nat2Z.inj_succ;
     replace (Z.succ (Z.of_nat (nb_digits d)) - 1) with (Z.of_nat (nb_digits d))
       by lia;
     simpl in Hof; injection Hof as <-;
     match goal with
     | |- context [Pos.of_uint_acc d ?a] =>
         pose proof (of_uint_acc_bounds d a)
     end; lia ..].
  exfalso. rewrite DecimalFacts.unorm_D0 in Hto.
  unfold unorm in Hto. pose proof (DecimalFacts.nzhead_nonzero d) as Hh.
  destruct (nzhead d) as [|u|u|u|u|u|u|u|u|u|u] eqn:En;
    [done | by destruct (Hh u) | done ..].
Qed.

(** The text of [n] has at most [int_max_str_digits] digits exactly when
    [n] is below [10 ^ int_max_str_digits] in absolute value. *)
Lemma str_of_int_digits n :
  let sign := if n <? 0 then 1 else 0 in
  let k := Z.of_nat (String.length (str_of_int n)) - sign in
  1 <= k /\ (k <= int_max_str_digits <-> within_str_limit n).
Proof.
  cbv zeta. unfold within_str_limit, str_of_int.
  destruct n as [|p|p]; simpl Z.to_int;
    [change (0 <? 0) with false
    |change (Z.pos p <? 0) with false
    |change (Z.neg p <? 0) with true]; cbv iota.
  - split; [simpl; lia|].
    split; [intros _; by vm_compute | intros _; by vm_compute].
  - pose proof (to_uint_bounds p) as Hb.
    unfold NilZero.string_of_int, NilZero.string_of_uint.
    replace (match Pos.to_uint p with
             | Nil => "0"
             | _ => NilEmpty.string_of_uint (Pos.to_uint p)
             end)
      with (NilEmpty.string_of_uint (Pos.to_uint p))
      by (pose proof (DecimalPos.Unsigned.to_uint_nonnil p);
          by destruct (Pos.to_uint p)).
    rewrite length_string_of_uint.
    set (k := Z.of_nat (nb_digits (Pos.to_uint p))) in *.
    assert (1 <= k)
      by (pose proof (DecimalPos.Unsigned.to_uint_nonnil p);
          unfold k; destruct (Pos.to_uint p); simpl; [done|lia..]).
    split; [lia|]. simpl Z.abs. split.
    + intros Hk. eapply Z.lt_le_trans; [apply Hb|].
      apply Z.pow_le_mono_r; [lia|]. lia.
    + intros Hlt.
      destruct (Z.le_gt_cases k int_max_str_digits) as [|Hgt]; [lia|].
      exfalso. assert (10 ^ int_max_str_digits <= 10 ^ (k - 1))
        by (apply Z.pow_le_mono_r; lia). lia.
  - pose proof (to_uint_bounds p) as Hb.
    unfold NilZero.string_of_int, NilZero.string_of_uint.
    replace (match Pos.to_uint p with
             | Nil => "0"
             | _ => NilEmpty.string_of_uint (Pos.to_uint p)
             end)
      with (NilEmpty.string_of_uint (Pos.to_uint p))
      by (pose proof (DecimalPos.Unsigned.to_uint_nonnil p);
          by destruct (Pos.to_uint p)).
    simpl String.length. rewrite length_string_of_uint.
    set (k := Z.of_nat (nb_digits (Pos.to_uint p))) in *.
    assert (1 <= k)
      by (pose proof (DecimalPos.Unsigned.to_uint_nonnil p);
          unfold k; destruct (Pos.to_uint p); simpl; [done|lia..]).
    split; [lia|]. simpl Z.abs.
    replace (Z.of_nat (S (Z.to_nat k)) - 1) with k by lia. split.
    + intros Hk. eapply Z.lt_le_trans; [apply Hb|].
      apply Z.pow_le_mono_r; [lia|]. lia.
    + intros Hlt.
      destruct (Z.le_gt_cases k int_max_str_digits) as [|Hgt]; [lia|].
      exfalso. assert (10 ^ int_max_str_digits <= 10 ^ (k - 1))
        by (apply Z.pow_le_mono_r; lia). lia.
Qed.

(** [str] returns the text of a number within the limit and raises
    [ValueError] beyond. *)
Lemma py_str_within n : within_str_limit n -> py_str n = Ok (str_of_int n).
Proof.
  intros Hn. pose proof (str_of_int_digits n) as [_ Hk]. cbv zeta in Hk.
  apply Hk in Hn. unfold py_str.
  destruct (Z.ltb_spec int_max_str_digits
              (Z.of_nat (String.length (str_of_int n))
               - (if n <? 0 then 1 else 0))); [lia|done].
Qed.

Lemma py_str_beyond n : ~ within_str_limit n -> py_str n = Raise ValueError.
Proof.
  intros Hn. pose proof (str_of_int_digits n) as [_ Hk]. cbv zeta in Hk.
  unfold py_str.
  destruct (Z.ltb_spec int_max_str_digits
              (Z.of_nat (String.length (str_of_int n))
               - (if n <? 0 then 1 else 0))); [done|].
  destruct Hn. apply Hk. lia.
Qed.

Lemma py_str_ok n s :
  py_str n = Ok s -> s = str_of_int n /\ within_str_limit n.
Proof.
  destruct (decide (within_str_limit n)) as [Hn|Hn].
  - rewrite (py_str_within n Hn). by intros [= <-].
  - by rewrite (py_str_beyond n Hn).
Qed.

Lemma py_str_raises n e :
  py_str n = Raise e -> e = ValueError /\ ~ within_str_limit n.
Proof.
  destruct (decide (within_str_limit n)) as [Hn|Hn].
  - by rewrite (py_str_within n Hn).
  - rewrite (py_str_beyond n Hn). by intros [= <-].
Qed.

(** The size of a list in memory, at most [sys.maxsize], is within the
    limit. *)
Lemma within_str_limit_maxsize n : Z.abs n < 2 ^ 63 -> within_str_limit n.
Proof.
  intros Hn. unfold within_str_limit.
  eapply Z.lt_trans; [exact Hn|]. by vm_compute.
Qed.

(** The text of a positive number reads back as that number. *)
Lemma int_of_str_uint d :
  d <> Nil ->
  Z.of_nat (nb_digits d) <= int_max_str_digits ->
  int_of_str (NilEmpty.string_of_uint d) = Ok (Z.of_int (Pos d)).
Proof.
  intros Hd Hk. unfold int_of_str.
  rewrite strip_no_space by apply no_space_string_of_uint.
  destruct d; [done|..]; simpl NilEmpty.string_of_uint;
    cbn [Ascii.eqb Bool.eqb]; cbn [digits Ascii.eqb Bool.eqb uint_of_char];
    rewrite digits_string_of_uint; cbn [fmap option_fmap option_map];
    cbn -[Z.ltb Z.of_nat nb_digits Z.of_int int_max_str_digits];
    match goal with
    | |- context [int_max_str_digits <? ?k] =>
        destruct (Z.ltb_spec int_max_str_digits k); [lia|done]
    end.
Qed.

(** [int(str(n)) == n] for a number within the limit. *)
Lemma int_of_str_of_int (n : Z) :
  within_str_limit n -> int_of_str (str_of_int n) = Ok n.
Proof.
  intros Hn. pose proof (str_of_int_digits n) as [_ Hk]. cbv zeta in Hk.
  apply Hk in Hn. clear Hk.
  unfold str_of_int in *. rewrite <- (DecimalZ.of_to n) at 2.
  destruct n as [|p|p]; simpl Z.to_int in *.
  - done.
  - change (Z.pos p <? 0) with false in Hn. cbv iota in Hn.
    pose proof (DecimalPos.Unsigned.to_uint_nonnil p) as Hp.
    unfold NilZero.string_of_int, NilZero.string_of_uint in *.
    replace (match Pos.to_uint p with
             | Nil => "0"
             | _ => NilEmpty.string_of_uint (Pos.to_uint p)
             end)
      with (NilEmpty.string_of_uint (Pos.to_uint p)) in *
      by (by destruct (Pos.to_uint p)).
    rewrite length_string_of_uint in Hn.
    rewrite int_of_str_uint; [done | done | lia].
  - change (Z.neg p <? 0) with true in Hn. cbv iota in Hn.
    pose proof (DecimalPos.Unsigned.to_uint_nonnil p) as Hp.
    unfold NilZero.string_of_int, NilZero.string_of_uint, int_of_str in *.
    replace (match Pos.to_uint p with
             | Nil => "0"
             | _ => NilEmpty.string_of_uint (Pos.to_uint p)
             end)
      with (NilEmpty.string_of_uint (Pos.to_uint p)) in *
      by (by destruct (Pos.to_uint p)).
    simpl String.length in Hn. rewrite length_string_of_uint in Hn.
    rewrite strip_no_space
      by (simpl; apply no_space_string_of_uint).
    cbn [Ascii.eqb Bool.eqb]. rewrite digits_string_of_uint_first by done.
    cbn [fmap option_fmap option_map Decimal.abs].
    destruct (Z.ltb_spec int_max_str_digits
                (Z.of_nat (nb_digits (Pos.to_uint p)))); [lia|done].
Qed.

(** What [int] accepts is within the limit. *)
Lemma int_of_str_within s n : int_of_str s = Ok n -> within_str_limit n.
Proof.
  unfold int_of_str.
  destruct (match strip_chars isspace_int s with
            | EmptyString => None
            | String c t =>
                if Ascii.eqb c "-" then Neg <$> digits t false
                else if Ascii.eqb c "+" then Pos <$> digits t false
                else Pos <$> digits (strip_chars isspace_int s) false
            end) as [d|]; [|done].
  destruct (Z.ltb_spec int_max_str_digits
              (Z.of_nat (nb_digits (Decimal.abs d)))) as [|Hk]; [done|].
  intros [= <-]. unfold within_str_limit.
  pose proof (of_uint_bound (Decimal.abs d)) as Hb.
  assert (Hd : Z.abs (Z.of_int d) = Z.of_N (Pos.of_uint (Decimal.abs d))).
  { destruct d as [u|u]; simpl; unfold Z.of_uint;
      destruct (Pos.of_uint u); simpl; lia. }
  rewrite Hd. eapply Z.lt_le_trans; [exact Hb|].
  apply Z.pow_le_mono_r; [lia|]. lia.
Qed.

(** ** Coordinates *)

Lemma getitem_head c s : getitem (String c s) 0 = Ok (String c EmptyString).
Proof.
  unfold getitem. simpl String.length.
  replace (0 <? 0) with false by done.
  replace ((0 <=? 0) && (0 <? Z.of_nat (S (String.length s)))) with true; [done|].
  symmetry. apply andb_true_intro. split; [done|]. apply Z.ltb_lt. lia.
Qed.

Lemma gtp_to_coord_letter c n board_size col :
  index letters (upper (String c EmptyString)) = Ok col ->
  within_str_limit n ->
  gtp_to_coord (String c (str_of_int n)) board_size = Ok (board_size - n, col).
Proof.
  intros Hcol Hn. unfold gtp_to_coord.
  rewrite getitem_head. simpl mbind. unfold outcome_bind, bind at 1.
  rewrite Hcol. simpl. by rewrite int_of_str_of_int.
Qed.

(** C2. For a valid coordinate of a board of size at most 19,
    [coord_to_gtp] returns the column letter (with 'I' skipped) followed
    by the row counted from the bottom, [board_size - row], and
    [gtp_to_coord] maps that text back to the coordinate. *)
Theorem coord_gtp_roundtrip (row col board_size : Z) :
  0 <= row < board_size ->
  0 <= col < board_size ->
  board_size <= 19 ->
  coord_to_gtp row col board_size
    = Ok (column_letter col ++ str_of_int (board_size - row)) /\
  column_letter col <> "I" /\
  1 <= board_size - row <= board_size /\
  gtp_to_coord (column_letter col ++ str_of_int (board_size - row)) board_size
    = Ok (row, col).
Proof.
  intros Hrow Hcol Hsize.
  assert (Hcases : In col [0; 1; 2; 3; 4; 5; 6; 7; 8; 9; 10; 11; 12; 13;
                           14; 15; 16; 17; 18]) by (simpl; lia).
  assert (Hn : within_str_limit (board_size - row))
    by (apply within_str_limit_maxsize; lia).
  split_and!.
  - simpl in Hcases. unfold coord_to_gtp. rewrite (py_str_within _ Hn).
    repeat (destruct Hcases as [<-|Hcases]; [reflexivity|]). done.
  - simpl in Hcases.
    repeat (destruct Hcases as [<-|Hcases]; [discriminate|]). done.
  - lia.
  - lia.
  - replace (Ok (row, col))
      with (Ok (A := Z * Z) (board_size - (board_size - row), col))
      by (do 2 f_equal; lia).
    simpl in Hcases.
    repeat (destruct Hcases as [<-|Hcases];
            [by apply gtp_to_coord_letter|]). done.
Qed.

(** The point Q16 of a 19x19 board: row 3 from the top, column 15. *)
Lemma coord_gtp_roundtrip_witness :
  coord_to_gtp 3 15 19 = Ok "Q16" /\ gtp_to_coord "Q16" 19 = Ok (3, 15).
Proof.
  destruct (coord_gtp_roundtrip 3 15 19) as (H1 & _ & _ & H2); [lia..|].
  split; [exact H1 | exact H2].
Defined.

(** ** Sorting in descending order *)

Section SortReverse.

Context {A : Type} (key : A -> Z).

Lemma insert_reverse_Permutation x l : insert_reverse key x l ≡ₚ x :: l.
Proof.
  induction l as [|y l IH]; simpl; [done|].
  destruct (key y <=? key x); [done|].
  rewrite IH. apply perm_swap.
Qed.

Lemma sort_reverse_Permutation l : sort_reverse key l ≡ₚ l.
Proof.
  induction l as [|x l IH]; simpl; [done|].
  rewrite insert_reverse_Permutation. by rewrite IH.
Qed.

Lemma insert_reverse_sorted x l :
  StronglySorted (descending key) l ->
  StronglySorted (descending key) (insert_reverse key x l).
Proof.
  induction 1 as [|y l Hl IH Hy]; simpl.
  - repeat constructor.
  - destruct (Z.leb_spec (key y) (key x)) as [Hle|Hlt].
    + constructor; [by constructor|]. constructor; [done|].
      eapply Forall_impl; [exact Hy|]. unfold descending. intros z Hz. lia.
    + constructor; [done|]. rewrite insert_reverse_Permutation.
      constructor; [unfold descending; lia | done].
Qed.

Lemma sort_reverse_sorted l : StronglySorted (descending key) (sort_reverse key l).
Proof.
  induction l as [|x l IH]; simpl; [constructor|].
  by apply insert_reverse_sorted.
Qed.

(** The sort is stable: the elements of any one key keep their order. *)
Lemma insert_reverse_stable k x l :
  StronglySorted (descending key) l ->
  filter (fun a => key a = k) (insert_reverse key x l)
  = filter (fun a => key a = k) (x :: l).
Proof.
  induction 1 as [|y l Hl IH Hy]; simpl; [done|].
  destruct (Z.leb_spec (key y) (key x)) as [Hle|Hlt]; [done|].
  rewrite !filter_cons in *. rewrite IH.
  destruct (decide (key y = k)), (decide (key x = k)); try done. lia.
Qed.

Lemma sort_reverse_stable k l :
  filter (fun a => key a = k) (sort_reverse key l)
  = filter (fun a => key a = k) l.
Proof.
  induction l as [|x l IH]; simpl; [done|].
  rewrite insert_reverse_stable by apply sort_reverse_sorted.
  by rewrite !filter_cons, IH.
Qed.

(** Being sorted and stable determines the result: any stable sort in
    descending order returns what [sort_reverse] returns. *)
Lemma stable_sorted_unique l1 l2 :
  StronglySorted (descending key) l1 ->
  StronglySorted (descending key) l2 ->
  (forall k, filter (fun a => key a = k) l1 = filter (fun a => key a = k) l2) ->
  l1 = l2.
Proof.
  intros Hl1. revert l2.
  induction Hl1 as [|x l1 Hl1 IH Hx]; intros l2 Hl2 Hfilter.
  - destruct l2 as [|y l2]; [done|].
    specialize (Hfilter (key y)). rewrite filter_cons_True in Hfilter by done.
    done.
  - destruct Hl2 as [|y l2 Hl2 Hy].
    { specialize (Hfilter (key x)).
      rewrite filter_cons_True in Hfilter by done. done. }
    assert (Hxy : key x = key y).
    { apply Z.le_antisymm.
      - assert (Hin : x ∈ y :: l2).
        { eapply (list_elem_of_filter (fun a => key a = key x)).
          rewrite <- Hfilter, filter_cons_True by done. left. }
        apply elem_of_cons in Hin as [->|Hin]; [done|].
        rewrite Forall_forall in Hy. by apply Hy.
      - assert (Hin : y ∈ x :: l1).
        { eapply (list_elem_of_filter (fun a => key a = key y)).
          rewrite Hfilter, filter_cons_True by done. left. }
        apply elem_of_cons in Hin as [->|Hin]; [done|].
        rewrite Forall_forall in Hx. by apply Hx. }
    assert (x = y) as <-.
    { specialize (Hfilter (key x)).
      rewrite !filter_cons_True in Hfilter by done. congruence. }
    f_equal. apply IH; [done|]. intros k. specialize (Hfilter k).
    rewrite !filter_cons in Hfilter.
    destruct (decide (key x = k)); congruence.
Qed.

Lemma sort_reverse_unique l l' :
  StronglySorted (descending key) l' ->
  (forall k, filter (fun a => key a = k) l' = filter (fun a => key a = k) l) ->
  l' = sort_reverse key l.
Proof.
  intros Hsorted Hstable. apply stable_sorted_unique; [done|..].
  - apply sort_reverse_sorted.
  - intros k. by rewrite Hstable, sort_reverse_stable.
Qed.

(** The keys of the result do not depend on the order of the input. *)
Lemma sort_reverse_keys_Permutation l1 l2 :
  l1 ≡ₚ l2 ->
  key <$> sort_reverse key l1 = key <$> sort_reverse key l2.
Proof.
  intros Hperm.
  apply (StronglySorted_unique_strong (fun a b : Z => b <= a)).
  - intros. lia.
  - eapply StronglySorted_fmap; [|apply sort_reverse_sorted]. done.
  - eapply StronglySorted_fmap; [|apply sort_reverse_sorted]. done.
  - by rewrite !sort_reverse_Permutation, Hperm.
Qed.

End SortReverse.

(** ** Decoding a reply *)

(** C1. Whatever the order of ["moveInfos"] in the reply, the candidate
    moves of the decoded result are the decoded elements of ["moveInfos"],
    arranged by visit count in descending order. *)
Theorem parse_response_sorted (response : Response) (state : GameState) :
  let move_infos := move_infos (_parse_response response state) in
  StronglySorted (fun a b => visits b <= visits a) move_infos /\
  move_infos ≡ₚ parse_move_info <$> get (r_moveInfos response) [].
Proof.
  simpl. split.
  - apply (sort_reverse_sorted visits).
  - apply sort_reverse_Permutation.
Qed.

(** Two replies whose ["moveInfos"] differ in order only decode to the
    same sequence of visit counts. *)
Lemma parse_response_order_independent (r1 r2 : Response) (state : GameState) :
  get (r_moveInfos r1) [] ≡ₚ get (r_moveInfos r2) [] ->
  visits <$> move_infos (_parse_response r1 state)
  = visits <$> move_infos (_parse_response r2 state).
Proof.
  intros Hperm. simpl. apply sort_reverse_keys_Permutation.
  by rewrite Hperm.
Qed.

Example parse_scenario_reply :
  let result := _parse_response scenario_reply new_game in
  move <$> move_infos result = ["Q16"; "D4"] /\
  root_winrate result = 0.62%float.
Proof. split; reflexivity. Qed.

(** C3. Decoding never raises.  A reply without ["rootInfo"] decodes to
    the root win probability 0.5, score lead 0.0 and visits 0; a
    ["rootInfo"] without one of these fields decodes to the default of that
    field; and every element of ["moveInfos"] has its decoded move in the
    result, with visits 0, win rate 0.5 and score lead 0.0 for the fields
    it lacks. *)
Theorem parse_response_defaults (response : Response) (state : GameState) :
  let result := _parse_response response state in
  (r_rootInfo response = None ->
     root_winrate result = 0.5%float /\
     root_score_lead result = 0.0%float /\
     root_visits result = 0) /\
  (forall root_info, r_rootInfo response = Some root_info ->
     (ri_winrate root_info = None -> root_winrate result = 0.5%float) /\
     (ri_scoreLead root_info = None -> root_score_lead result = 0.0%float) /\
     (ri_visits root_info = None -> root_visits result = 0)) /\
  (forall raw mi, r_moveInfos response = Some raw -> mi ∈ raw ->
     exists m, m ∈ move_infos result /\
       m = parse_move_info mi /\
       (mi_visits mi = None -> visits m = 0) /\
       (mi_winrate mi = None -> winrate m = 0.5%float) /\
       (mi_scoreLead mi = None -> score_lead m = 0.0%float)).
Proof.
  simpl. split_and!.
  - by intros ->.
  - intros root_info ->. simpl. split_and!; by intros ->.
  - intros raw mi -> Hmi. exists (parse_move_info mi). split_and!.
    + rewrite (sort_reverse_Permutation visits). simpl.
      by apply list_elem_of_fmap_2.
    + done.
    + intros H. simpl. by rewrite H.
    + intros H. simpl. by rewrite H.
    + intros H. simpl. by rewrite H.
Qed.

(** The empty object decodes to the three defaults. *)
Lemma parse_response_defaults_witness :
  let result := _parse_response empty_reply new_game in
  root_winrate result = 0.5%float /\
  root_score_lead result = 0.0%float /\
  root_visits result = 0.
Proof.
  exact (proj1 (parse_response_defaults empty_reply new_game) eq_refl).
Defined.

(** ** Building a query *)

Lemma rules_map_lookup (name : string) :
  rules_map !! name = if decide (name ∈ rules_names) then Some name else None.
Proof.
  destruct (decide (name ∈ rules_names)) as [Hin|Hout].
  - unfold rules_names in Hin.
    repeat (apply elem_of_cons in Hin as [->|Hin]; [by vm_compute|]).
    by apply elem_of_nil in Hin.
  - by apply not_elem_of_list_to_map_1.
Qed.

Lemma getitem_raises s i e : getitem s i = Raise e -> e = IndexError.
Proof.
  unfold getitem. destruct (_ && _); [|congruence].
  destruct (String.get _ _); congruence.
Qed.

Lemma getitem_letters_raises col e :
  getitem letters col = Raise e -> e = IndexError /\ ~ (-19 <= col < 19).
Proof.
  intros H. split; [by eapply getitem_raises|]. intros Hcol.
  assert (Hcases : In (col + 19) (Z.of_nat <$> seq 0 38)) by (simpl; lia).
  simpl in Hcases.
  repeat (destruct Hcases as [Hc|Hcases];
          [replace col with (col + 19 - 19) in H by lia;
           rewrite <- Hc in H; discriminate H|]).
  done.
Qed.

Lemma for_each_raises {A B} (f : A -> outcome B) l e :
  for_each f l = Raise e -> exists x, x ∈ l /\ f x = Raise e.
Proof.
  induction l as [|x l IH]; simpl; [done|].
  destruct (f x) as [y|e'] eqn:Hx; simpl.
  - destruct (for_each f l) as [ys|e'']; simpl; [done|].
    intros [= ->]. destruct IH as (x' & Hin & Hx'); [done|].
    exists x'. split; [by right | done].
  - intros [= ->]. exists x. split; [by left | done].
Qed.

Lemma getitem_letters_out_of_range col :
  ~ (-19 <= col < 19) -> getitem letters col = Raise IndexError.
Proof.
  intros Hcol. unfold getitem.
  change (Z.of_nat (String.length letters)) with 19.
  destruct (Z.ltb_spec col 0).
  - replace ((0 <=? col + 19) && (col + 19 <? 19)) with false; [done|].
    symmetry. apply andb_false_intro1. apply Z.leb_gt. lia.
  - replace ((0 <=? col) && (col <? 19)) with false; [done|].
    symmetry. apply andb_false_intro2. apply Z.ltb_ge. lia.
Qed.

Lemma getitem_letters_ok col letter :
  getitem letters col = Ok letter -> -19 <= col < 19.
Proof.
  intros H. destruct (decide (-19 <= col < 19)) as [|Hout]; [done|].
  by rewrite (getitem_letters_out_of_range col Hout) in H.
Qed.

(** [coord_to_gtp] raises [IndexError] for a column without a letter,
    and, for a column with one, [ValueError] for a row whose number is
    beyond the limit of [str]. *)
Lemma coord_to_gtp_raises row col board_size e :
  coord_to_gtp row col board_size = Raise e ->
  e = IndexError /\ ~ (-19 <= col < 19) \/
  e = ValueError /\ -19 <= col < 19 /\
    ~ within_str_limit (board_size - row).
Proof.
  unfold coord_to_gtp.
  destruct (getitem letters col) as [letter|e'] eqn:E; simpl.
  - apply getitem_letters_ok in E.
    destruct (py_str (board_size - row)) as [number|e'] eqn:En; simpl;
      [done|].
    intros [= ->]. apply py_str_raises in En as [-> Hn]. by right.
  - intros [= ->]. left. by apply getitem_letters_raises.
Qed.

Lemma encode_move_raises board_size m e :
  encode_move board_size m = Raise e ->
  exists color row col, m = (color, Some (row, col)) /\
                        coord_to_gtp row col board_size = Raise e.
Proof.
  destruct m as [color [[row col]|]]; simpl; [|done].
  destruct (coord_to_gtp row col board_size) eqn:E; simpl; [done|].
  intros [= ->]. by exists color, row, col.
Qed.

(** C8. Whatever the rules string of the position, the query that
    [_build_query] returns carries the lower-cased string when that is one
    of the seven names of the whitelist and "chinese" otherwise; and
    [_build_query] raises only because of a move, one whose column has no
    letter ([IndexError]) or whose row number is beyond the limit of [str]
    ([ValueError]), so never because of the rules. *)
Theorem build_query_rules (uuid : string) (state : GameState)
    (max_visits : Z) (include_ownership include_policy : bool)
    (analysis_pv_len : Z) :
  let built := _build_query uuid state max_visits include_ownership
                 include_policy analysis_pv_len in
  let name := lower (rules state) in
  (forall query, built = Ok query ->
     q_rules query = if decide (name ∈ rules_names) then name else "chinese") /\
  (forall e, built = Raise e ->
     exists color row col,
       (color, Some (row, col)) ∈ moves state /\
       (e = IndexError /\ ~ (-19 <= col < 19) \/
        e = ValueError /\ -19 <= col < 19 /\
          ~ within_str_limit (board_size state - row))).
Proof.
  simpl. unfold _build_query. split.
  - intros query.
    destruct (for_each _ _) as [ms|e]; simpl; [|done].
    intros [= <-]. simpl. rewrite rules_map_lookup.
    by destruct (decide _).
  - intros e.
    destruct (for_each _ _) as [ms|e'] eqn:E; simpl; [done|].
    intros [= ->].
    apply for_each_raises in E as (m & Hin & Hm).
    apply encode_move_raises in Hm as (color & row & col & -> & Hraise).
    apply coord_to_gtp_raises in Hraise.
    by exists color, row, col.
Qed.

(** "Japanese" is normalised to "japanese"; "ING" is not a known name and
    becomes "chinese". *)
Lemma build_query_rules_witness :
  (exists query,
     _build_query "u" (with_rules "Japanese" new_game) 100 true false 10
       = Ok query /\ q_rules query = "japanese") /\
  (exists query,
     _build_query "u" (with_rules "ING" new_game) 100 true false 10
       = Ok query /\ q_rules query = "chinese").
Proof.
  split.
  - eexists. split; [reflexivity|].
    exact (proj1 (build_query_rules "u" (with_rules "Japanese" new_game)
                    100 true false 10) _ eq_refl).
  - eexists. split; [reflexivity|].
    exact (proj1 (build_query_rules "u" (with_rules "ING" new_game)
                    100 true false 10) _ eq_refl).
Defined.

(** ** The reader of the engine's output *)

Section Reader.

Variable json_loads : string -> outcome json.

(** C10. A line that parses to an object whose ["id"] is missing or is
    the empty string changes nothing: the reply cache, the pending-request
    table and every event are as before, and the reader goes on. *)
Theorem read_reply_without_id (line : string) (response : Response)
    (c : Client) :
  line <> "" ->
  json_loads (strip line) = Ok (JObject response) ->
  r_id response = None \/ r_id response = Some "" ->
  _read_responses_step json_loads (Ok line) c = (true, c).
Proof.
  intros Hline Hparse Hid. unfold _read_responses_step.
  rewrite decide_False by done.
  destruct (decide (strip line = "")); [done|].
  rewrite Hparse. by destruct Hid as [-> | ->].
Qed.


(** A line that carries a reply with an identifier puts the reply in the
    cache and sets the event of the identifier, if it has one. *)
Lemma read_reply_line (good : string) (reply : Response) (rid : string)
    (c : Client) :
  strip good <> "" ->
  json_loads (strip good) = Ok (JObject reply) ->
  r_id reply = Some rid ->
  rid <> "" ->
  _read_responses_step json_loads (Ok good) c
  = (true,
     let c' := set_responses (<[rid := reply]> (responses c)) c in
     match pending_requests c !! rid with
     | Some h => event_set h c'
     | None => c'
     end).
Proof.
  intros Hgood Hparse Hid Hrid. unfold _read_responses_step.
  rewrite decide_False by (by intros ->).
  rewrite decide_False by done.
  rewrite Hparse, Hid. rewrite decide_False by done.
  simpl. by destruct (pending_requests c !! rid).
Qed.

Lemma is_set_event_set h c :
  (h < length (events c))%nat -> is_set h (event_set h c) = true.
Proof.
  intros Hh. unfold is_set, event_set. simpl.
  by rewrite list_lookup_insert_eq.
Qed.

End Reader.

(** ** The pending-request table and the events *)

Lemma wf_lookup_lt c rid h :
  wf c -> pending_requests c !! rid = Some h -> (h < length (events c))%nat.
Proof. intros [H _] Hh. exact (H rid h Hh). Qed.

Lemma wf_lookup_inj c r1 r2 h :
  wf c -> pending_requests c !! r1 = Some h ->
  pending_requests c !! r2 = Some h -> r1 = r2.
Proof. intros [_ H] H1 H2. exact (H r1 h H1 r2 h H2 eq_refl). Qed.

Lemma wf_init kp mp cp n d : wf (__init__ kp mp cp n d).
Proof. split; intros r h; simpl; by rewrite lookup_empty. Qed.

Lemma list_lookup_insert_agree {A} (l l' : list A) e j x :
  l !! j = l' !! j -> <[e := x]> l !! j = <[e := x]> l' !! j.
Proof.
  intros Hj. destruct (decide (e = j)) as [->|Hne].
  - destruct (l !! j) as [y|] eqn:E.
    + rewrite !list_lookup_insert_eq; [done|..].
      * apply lookup_lt_is_Some. rewrite <- Hj. eauto.
      * apply lookup_lt_is_Some. eauto.
    + rewrite !list_insert_ge; [congruence|..].
      * apply lookup_ge_None. congruence.
      * by apply lookup_ge_None.
  - by rewrite !list_lookup_insert_ne.
Qed.

Section Client.

Variable json_loads : string -> outcome json.
Variable json_dumps : Query -> string.

(** What one turn of the reader does to the state: nothing, or it caches
    the reply of the line under its identifier and sets the event the
    table has for it. *)
Lemma read_step_effect read c :
  let c' := snd (_read_responses_step json_loads read c) in
  c' = c \/
  exists line reply rid,
    read = Ok line /\ json_loads (strip line) = Ok (JObject reply) /\
    r_id reply = Some rid /\ rid <> "" /\
    c' = let c1 := set_responses (<[rid := reply]> (responses c)) c in
         match pending_requests c !! rid with
         | Some h => event_set h c1
         | None => c1
         end.
Proof.
  unfold _read_responses_step.
  destruct read as [line|e]; [|by left].
  destruct (decide (line = "")); [by left|].
  destruct (decide (strip line = "")); [by left|].
  destruct (json_loads (strip line)) as [[reply|]|e] eqn:Hparse.
  - destruct (r_id reply) as [rid|] eqn:Hid; [|by left].
    destruct (decide (rid = "")); [by left|].
    right. exists line, reply, rid. split_and!; try done.
    simpl. by destruct (pending_requests c !! rid).
  - by left.
  - destruct e; by left.
Qed.

Lemma read_step_pending read c :
  pending_requests (snd (_read_responses_step json_loads read c))
  = pending_requests c.
Proof.
  destruct (read_step_effect read c) as [->|(l & r & rid & _ & _ & _ & _ & ->)];
    [done|].
  by destruct (pending_requests c !! rid).
Qed.

Lemma read_step_process read c :
  process (snd (_read_responses_step json_loads read c)) = process c.
Proof.
  destruct (read_step_effect read c) as [->|(l & r & rid & _ & _ & _ & _ & ->)];
    [done|].
  by destruct (pending_requests c !! rid).
Qed.

Lemma read_step_events_length read c :
  length (events (snd (_read_responses_step json_loads read c)))
  = length (events c).
Proof.
  destruct (read_step_effect read c) as [->|(l & r & rid & _ & _ & _ & _ & ->)];
    [done|].
  destruct (pending_requests c !! rid); simpl; [|done].
  by rewrite length_insert.
Qed.

Lemma stderr_step_fields read c :
  let c' := snd (_read_stderr_step read c) in
  pending_requests c' = pending_requests c /\ process c' = process c /\
  events c' = events c /\ responses c' = responses c.
Proof.
  unfold _read_stderr_step. destruct read as [line|e]; [|done].
  by destruct (decide (line = "")).
Qed.

Lemma run_activity_pending a c :
  pending_requests (run_activity json_loads a c) = pending_requests c.
Proof.
  destruct a as [read|read]; simpl; destruct (process c); try done.
  - apply read_step_pending.
  - apply stderr_step_fields.
Qed.

Lemma run_activity_process a c :
  process (run_activity json_loads a c) = process c.
Proof.
  destruct a as [read|read]; simpl; destruct (process c) eqn:E; try done.
  - by rewrite read_step_process.
  - pose proof (stderr_step_fields read c) as (_ & -> & _). done.
Qed.

Lemma run_activity_events_length a c :
  length (events (run_activity json_loads a c)) = length (events c).
Proof.
  destruct a as [read|read]; simpl; destruct (process c); try done.
  - apply read_step_events_length.
  - pose proof (stderr_step_fields read c) as (_ & _ & -> & _). done.
Qed.

Lemma run_activity_wf a c : wf c -> wf (run_activity json_loads a c).
Proof.
  unfold wf.
  rewrite run_activity_pending, run_activity_events_length. done.
Qed.

Lemma event_wait_pending h during c :
  pending_requests (snd (event_wait json_loads h during c))
  = pending_requests c.
Proof.
  revert c. induction during as [|a during IH]; intros c; simpl;
    destruct (is_set h c); try done.
  by rewrite IH, run_activity_pending.
Qed.

Lemma event_wait_process h during c :
  process (snd (event_wait json_loads h during c)) = process c.
Proof.
  revert c. induction during as [|a during IH]; intros c; simpl;
    destruct (is_set h c); try done.
  by rewrite IH, run_activity_process.
Qed.

Lemma event_wait_wf h during c :
  wf c -> wf (snd (event_wait json_loads h during c)).
Proof.
  revert c. induction during as [|a during IH]; intros c Hc; simpl;
    destruct (is_set h c); try done.
  by apply IH, run_activity_wf.
Qed.

End Client.

Section Waiting.

Variable json_loads : string -> outcome json.
Variable json_dumps : Query -> string.

Lemma agree_off_refl rid h c : agree_off rid h c c.
Proof. by repeat split. Qed.

(** A reply for [rid] that the reader caches leaves the state as it was,
    off [rid] and its event. *)
Lemma agree_off_late_reply rid h reply c :
  pending_requests c !! rid = Some h ->
  agree_off rid h
    (event_set h (set_responses (<[rid := reply]> (responses c)) c)) c.
Proof.
  intros Hh. repeat split; simpl.
  - intros k Hk. by rewrite lookup_insert_ne.
  - intros i Hi. by rewrite list_lookup_insert_ne.
Qed.

Lemma agree_off_read_step rid h read c c' :
  agree_off rid h c c' ->
  fst (_read_responses_step json_loads read c)
  = fst (_read_responses_step json_loads read c') /\
  agree_off rid h (snd (_read_responses_step json_loads read c))
                  (snd (_read_responses_step json_loads read c')).
Proof.
  intros (Hproc & Hpend & Hresp & Hev). unfold _read_responses_step.
  destruct read as [line|e]; [|by repeat split].
  destruct (decide (line = "")); [by repeat split|].
  destruct (decide (strip line = "")); [by repeat split|].
  destruct (json_loads (strip line)) as [[reply|]|e];
    [|by repeat split|by destruct e; repeat split].
  destruct (r_id reply) as [k|]; [|by repeat split].
  destruct (decide (k = "")); [by repeat split|].
  simpl. rewrite <- Hpend.
  assert (Hresp' : forall j, j <> rid ->
            <[k := reply]> (responses c) !! j
            = <[k := reply]> (responses c') !! j).
  { intros j Hj. destruct (decide (k = j)) as [->|Hne].
    - by rewrite !lookup_insert_eq.
    - rewrite !lookup_insert_ne by done. by apply Hresp. }
  destruct (pending_requests c !! k) as [e|]; (split; [done|]);
    repeat split; simpl; try done.
  intros i Hi. apply list_lookup_insert_agree. by apply Hev.
Qed.

Lemma agree_off_run_activity rid h a c c' :
  agree_off rid h c c' ->
  agree_off rid h (run_activity json_loads a c) (run_activity json_loads a c').
Proof.
  intros Hagree. pose proof Hagree as (Hproc & Hpend & Hresp & Hev).
  destruct a as [read|read]; simpl; rewrite <- Hproc;
    destruct (process c); try done.
  - by apply agree_off_read_step.
  - pose proof (stderr_step_fields read c) as H1.
    pose proof (stderr_step_fields read c') as H2.
    cbv zeta in H1, H2. unfold agree_off.
    destruct H1 as (-> & -> & -> & ->), H2 as (-> & -> & -> & ->).
    done.
Qed.

Lemma agree_off_is_set rid h h' c c' :
  agree_off rid h c c' -> h' <> h -> is_set h' c = is_set h' c'.
Proof. intros (_ & _ & _ & Hev) Hne. unfold is_set. by rewrite Hev. Qed.

Lemma agree_off_event_wait rid h h' during c c' :
  agree_off rid h c c' -> h' <> h ->
  fst (event_wait json_loads h' during c)
  = fst (event_wait json_loads h' during c') /\
  agree_off rid h (snd (event_wait json_loads h' during c))
                  (snd (event_wait json_loads h' during c')).
Proof.
  intros Hagree Hne. revert c c' Hagree.
  induction during as [|a during IH]; intros c c' Hagree; simpl;
    rewrite <- (agree_off_is_set rid h h' c c') by done;
    destruct (is_set h' c); try done.
  by apply IH, agree_off_run_activity.
Qed.

(** Waiting for another identifier gives the same answer in two states
    that agree off [rid] and its event. *)
Lemma agree_off_wait rid h other during c c' :
  wf c -> pending_requests c !! rid = Some h -> other <> rid ->
  agree_off rid h c c' ->
  fst (_wait_for_response json_loads other during c)
  = fst (_wait_for_response json_loads other during c').
Proof.
  intros Hwf Hh Hother Hagree. unfold _wait_for_response.
  pose proof Hagree as (_ & <- & _ & _).
  destruct (pending_requests c !! other) as [h'|] eqn:Hh'; [|done].
  assert (Hne : h' <> h).
  { intros ->. apply Hother. by eapply wf_lookup_inj. }
  destruct (agree_off_event_wait rid h h' during c c' Hagree Hne)
    as [Hfst Hsnd].
  destruct (event_wait json_loads h' during c) as [s1 c1].
  destruct (event_wait json_loads h' during c') as [s2 c2].
  simpl in *. subst s2. destruct s1; [simpl|done].
  destruct Hsnd as (_ & _ & Hresp & _). by apply Hresp.
Qed.

End Waiting.

(** ** Requests and replies *)

Section Requests.

Variable json_loads : string -> outcome json.
Variable json_dumps : Query -> string.

(** C4. When the event of a pending request is not set before the
    timeout, [_wait_for_response] returns [None], and so does
    [analyze_position] for the query it has sent: neither raises.  A reply
    for that identifier that the reader gets afterwards leaves the table as
    it is, and leaves every other identifier with the cached reply and the
    event flag it had: a wait for another identifier returns what it would
    have returned without the late reply. *)
Theorem timeout_returns_none (rid : string) (h : nat)
    (during : list activity) (c : Client) :
  wf c ->
  pending_requests c !! rid = Some h ->
  fst (event_wait json_loads h during c) = false ->
  let c' := snd (event_wait json_loads h during c) in
  _wait_for_response json_loads rid during c = (None, c') /\
  (forall w query state max_visits include_ownership include_policy
          analysis_pv_len c0,
     _build_query (uuid_build w) state max_visits include_ownership
       include_policy analysis_pv_len = Ok query ->
     _send_query json_dumps w query c0 = (Ok rid, c) ->
     analyze_position json_loads json_dumps w during state max_visits
       include_ownership include_policy analysis_pv_len c0
     = (Ok None, c')) /\
  (forall late reply other,
     json_loads (strip late) = Ok (JObject reply) ->
     r_id reply = Some rid ->
     other <> rid ->
     let c'' := run_activity json_loads (Stdout (Ok late)) c' in
     pending_requests c'' = pending_requests c' /\
     responses c'' !! other = responses c' !! other /\
     (forall h', pending_requests c' !! other = Some h' ->
                 is_set h' c'' = is_set h' c') /\
     (forall during',
        fst (_wait_for_response json_loads other during' c'')
        = fst (_wait_for_response json_loads other during' c'))).
Proof.
  intros Hwf Hh Htimeout. cbv zeta.
  assert (Hwait : _wait_for_response json_loads rid during c
                  = (None, snd (event_wait json_loads h during c))).
  { unfold _wait_for_response. rewrite Hh.
    destruct (event_wait json_loads h during c) as [signaled c1].
    simpl in *. by subst signaled. }
  pose proof (event_wait_wf json_loads h during c Hwf) as Hwf'.
  pose proof (event_wait_pending json_loads h during c) as Hpend.
  set (c' := snd (event_wait json_loads h during c)) in *.
  assert (Hh' : pending_requests c' !! rid = Some h) by (by rewrite Hpend).
  split_and!.
  - exact Hwait.
  - intros w query state mv io ip pv c0 Hbuild Hsend.
    unfold analyze_position. by rewrite Hbuild, Hsend, Hwait.
  - intros late reply other Hparse Hid Hother.
    assert (Hagree :
      agree_off rid h (run_activity json_loads (Stdout (Ok late)) c') c').
    { unfold run_activity. destruct (process c'); [|apply agree_off_refl].
      pose proof (read_step_effect json_loads (Ok late) c') as Heff.
      cbv zeta in Heff.
      destruct Heff as [->|(l & r & k & [= <-] & Hparse' & Hid' & _ & ->)];
        [apply agree_off_refl|].
      rewrite Hparse in Hparse'. injection Hparse' as <-.
      rewrite Hid in Hid'. injection Hid' as <-.
      rewrite Hh'. by apply agree_off_late_reply. }
    split_and!.
    + apply run_activity_pending.
    + destruct Hagree as (_ & _ & Hresp & _). by apply Hresp.
    + intros h' Hother'. eapply agree_off_is_set; [exact Hagree|].
      intros ->. apply Hother. by eapply wf_lookup_inj.
    + intros during'. symmetry.
      apply (agree_off_wait json_loads rid h); try done.
      destruct Hagree as (H1 & H2 & H3 & H4).
      repeat split; [done|done|..].
      * intros k Hk. symmetry. by apply H3.
      * intros i Hi. symmetry. by apply H4.
Qed.

(** C7. [_wait_for_response] leaves the pending-request table as it
    found it, whether it returns a reply or gives up: the entry that
    [_send_query] made for the identifier stays in the table. *)
Theorem wait_keeps_pending_entry (rid : string) (during : list activity)
    (c : Client) :
  pending_requests (snd (_wait_for_response json_loads rid during c))
  = pending_requests c.
Proof.
  unfold _wait_for_response.
  destruct (pending_requests c !! rid) as [h|]; [|done].
  pose proof (event_wait_pending json_loads h during c) as Hpend.
  destruct (event_wait json_loads h during c) as [[] c']; simpl in *; done.
Qed.

End Requests.

Section ReaderLoop.

Variable json_loads : string -> outcome json.

Lemma read_responses_cons read rest c p :
  process c = Some p ->
  _read_responses json_loads (read :: rest) c
  = let '(go_on, c') := _read_responses_step json_loads read c in
    if go_on then _read_responses json_loads rest c' else c'.
Proof. intros Hp. simpl. by rewrite Hp. Qed.


Lemma event_wait_unset h a rest c :
  is_set h c = false ->
  event_wait json_loads h (a :: rest) c
  = event_wait json_loads h rest (run_activity json_loads a c).
Proof. intros H. simpl. by rewrite H. Qed.

Lemma event_wait_set h during c :
  is_set h c = true -> event_wait json_loads h during c = (true, c).
Proof. intros H. destruct during; simpl; by rewrite H. Qed.

Lemma run_activity_stdout read c p :
  process c = Some p ->
  run_activity json_loads (Stdout read) c
  = snd (_read_responses_step json_loads read c).
Proof. intros Hp. simpl. by rewrite Hp. Qed.


End ReaderLoop.

(** ** Starting the process and sending a query *)

Lemma start_frame w c :
  let c' := snd (start w c) in
  pending_requests c' = pending_requests c /\
  responses c' = responses c /\
  events c' = events c /\
  _stderr_lines c' = _stderr_lines c.
Proof.
  unfold start. destruct (_is_alive c); [done|].
  simpl. destruct (path_exists w (katago_path c)); [|done].
  simpl. destruct (path_exists w (model_path c)); [|done].
  simpl. destruct (popen_error w); [done|].
  simpl. by destruct (alive_after_grace w).
Qed.

Lemma start_ok_alive w c :
  fst (start w c) = Ok () -> _is_alive (snd (start w c)) = true.
Proof.
  unfold start. destruct (_is_alive c) eqn:E; [done|].
  simpl. destruct (path_exists w (katago_path c)); [|done].
  simpl. destruct (path_exists w (model_path c)); [|done].
  simpl. destruct (popen_error w); [done|].
  simpl. by destruct (alive_after_grace w).
Qed.

Section Sending.

Variable json_dumps : Query -> string.

(** C6. When the process runs (or has just been started) and the write
    to its input fails with [BrokenPipeError] or another [OSError],
    [_send_query] raises a [RuntimeError] whose message carries the last
    lines read from the error stream (at most 20), and the entry it had
    made for the identifier of the query is no more in the table. *)
Theorem send_query_broken_pipe (w : World) (query : Query) (c : Client)
    (e : exn) :
  _is_alive c = true \/ fst (start w c) = Ok () ->
  write_outcome w = Raise e ->
  is_OSError e = true ->
  let request_id := get (q_id query) (uuid_send w) in
  let c' := snd (_send_query json_dumps w query c) in
  fst (_send_query json_dumps w query c)
  = Raise (RuntimeError
             ("KataGo process died (broken pipe). Recent stderr:" ++ newline
              ++ join newline (last_n 20 (_stderr_lines c)))) /\
  pending_requests c' !! request_id = None /\
  pending_requests c' = delete request_id (pending_requests c).
Proof.
  intros Hstart Hwrite Hos. cbv zeta. unfold _send_query.
  set (started := if negb (_is_alive c) then start w c else (Ok (), c)).
  assert (Hs : fst started = Ok () /\ _is_alive (snd started) = true /\
               pending_requests (snd started) = pending_requests c /\
               _stderr_lines (snd started) = _stderr_lines c).
  { unfold started. destruct (_is_alive c) eqn:Ha; simpl; [done|].
    destruct Hstart as [|Hok]; [done|].
    pose proof (start_frame w c) as (Hp & _ & _ & Hl).
    split_and!; try done. by apply start_ok_alive. }
  destruct started as [r c1]. simpl in Hs.
  destruct Hs as (-> & Halive & Hpend & Hlines).
  rewrite Halive. simpl negb. cbv iota.
  unfold _is_alive in Halive. simpl.
  destruct (process c1) as [p|] eqn:Hp; [|done].
  rewrite Hwrite, Hos. simpl.
  rewrite Hlines, Hpend.
  split_and!.
  - destruct (_stderr_lines c); done.
  - by rewrite lookup_delete_eq.
  - by rewrite delete_insert_eq.
Qed.

End Sending.

(** C9, as amended. When no process is running and the executable or the
    model file does not exist, [start] raises [FileNotFoundError] with a
    message that names the missing path, records that message in
    [_startup_error], and launches nothing: [process] is as before.  The
    path of the configuration file is not looked at. *)
Theorem start_missing_file (w : World) (c : Client) :
  _is_alive c = false ->
  path_exists w (katago_path c) = false \/
  path_exists w (model_path c) = false ->
  exists msg,
    fst (start w c) = Raise (FileNotFoundError msg) /\
    (path_exists w (katago_path c) = false /\
       msg = "KataGo executable not found: " ++ katago_path c \/
     path_exists w (model_path c) = false /\
       msg = "KataGo model not found: " ++ model_path c) /\
    _startup_error (snd (start w c)) = Some msg /\
    process (snd (start w c)) = process c.
Proof.
  intros Hdead Hmissing. unfold start. rewrite Hdead. simpl.
  destruct (path_exists w (katago_path c)) eqn:Hk; simpl.
  - destruct Hmissing as [|Hm]; [done|]. rewrite Hm. simpl.
    eexists. split_and!; [done|by right|done|done].
  - eexists. split_and!; [done|by left|done|done].
Qed.

(** With the model file missing, a new client fails to start and has no
    process. *)
Lemma start_missing_file_witness :
  exists msg,
    fst (start (world_without "/usr/share/katago/model.bin.gz") c_new)
    = Raise (FileNotFoundError msg) /\
    msg = "KataGo model not found: /usr/share/katago/model.bin.gz" /\
    process (snd (start (world_without "/usr/share/katago/model.bin.gz")
                    c_new)) = None.
Proof.
  destruct (start_missing_file
              (world_without "/usr/share/katago/model.bin.gz") c_new)
    as (msg & H1 & H2 & _ & H4); [reflexivity | right; reflexivity |].
  exists msg. split_and!; [exact H1 | | exact H4].
  destruct H2 as [[H _]|[_ H]]; [discriminate H | exact H].
Defined.

(** C9, as stated, fails.  With the configuration file missing (and the
    executable and the model there), [start] raises nothing and launches
    the process.  And when a process already runs, [start] returns at once,
    whatever files are missing. *)
Lemma start_config_missing_counterexample :
  let w := world_without "/etc/katago/analysis.cfg" in
  let w' := world_without "/usr/local/bin/katago" in
  (path_exists w (config_path c_new) = false /\
   fst (start w c_new) = Ok () /\
   process (snd (start w c_new))
   = Some {| cmd := ["/usr/local/bin/katago"; "analysis";
                     "-model"; "/usr/share/katago/model.bin.gz";
                     "-config"; "/etc/katago/analysis.cfg";
                     "-analysis-threads"; "2"];
             running := true; stdin := [] |}) /\
  (path_exists w' (katago_path c_two_pending) = false /\
   start w' c_two_pending = (Ok (), c_two_pending)).
Proof. split_and!; reflexivity. Qed.

(** ** The properties at concrete states *)

(** The invariant holds in the state with two pending queries. *)
Lemma wf_two_pending : wf c_two_pending.
Proof. apply (bool_decide_unpack _). by vm_compute. Qed.

(** The wait for "u1" sees only a line that is not JSON and times out;
    the reply for "u1" comes late; the wait for "u2" then gets the reply
    for "u2". *)
Lemma timeout_returns_none_witness :
  fst (_wait_for_response loads_test "u1" [Stdout (Ok "not json")]
         c_two_pending) = None /\
  fst (_wait_for_response loads_test "u2" [Stdout (Ok "reply u2")]
         (run_activity loads_test (Stdout (Ok "reply u1")) c_two_pending))
  = Some (reply_of "u2").
Proof.
  destruct (timeout_returns_none loads_test dumps_test "u1" 0%nat
              [Stdout (Ok "not json")] c_two_pending)
    as (H1 & _ & H3);
    [apply (bool_decide_unpack _); by vm_compute
    | reflexivity | reflexivity |].
  destruct (H3 "reply u1" (reply_of "u1") "u2")
    as (_ & _ & _ & H4); [reflexivity | reflexivity | done |].
  split.
  - exact (f_equal fst H1).
  - exact (eq_trans (H4 [Stdout (Ok "reply u2")]) eq_refl).
Defined.



(** The line [{}] carries no identifier and changes nothing. *)
Lemma read_reply_without_id_witness :
  _read_responses_step loads_test (Ok "{}") c_two_pending
  = (true, c_two_pending).
Proof.
  apply (read_reply_without_id loads_test "{}" empty_reply c_two_pending);
    [done | reflexivity | left; reflexivity].
Defined.

(** A query "u3" whose write fails: the message carries the two lines of
    the error stream and "u3" is not in the table. *)
Lemma send_query_broken_pipe_witness :
  let q := {| q_id := Some "u3"; q_moves := []; q_initialStones := [];
              q_rules := "chinese"; q_komi := 7.5%float;
              q_boardXSize := 19; q_boardYSize := 19;
              q_analyzeTurns := [0]; q_maxVisits := 100;
              q_analysisPVLen := 10; q_includeOwnership := true;
              q_includePolicy := false |} in
  let r := _send_query dumps_test world_broken_pipe q c_two_pending in
  fst r = Raise (RuntimeError
                   ("KataGo process died (broken pipe). Recent stderr:"
                    ++ newline ++ "loading model" ++ newline
                    ++ "out of memory")) /\
  pending_requests (snd r) !! "u3" = None.
Proof.
  cbv zeta.
  destruct (send_query_broken_pipe dumps_test world_broken_pipe
              {| q_id := Some "u3"; q_moves := []; q_initialStones := [];
                 q_rules := "chinese"; q_komi := 7.5%float;
                 q_boardXSize := 19; q_boardYSize := 19;
                 q_analyzeTurns := [0]; q_maxVisits := 100;
                 q_analysisPVLen := 10; q_includeOwnership := true;
                 q_includePolicy := false |}
              c_two_pending BrokenPipeError)
    as (H1 & H2 & _); [left; reflexivity | reflexivity | reflexivity |].
  split; [exact H1 | exact H2].
Defined.

(** A full cycle: a query is sent, the reply comes, the caller gets its
    result; and the entry of the query is still in the table.  The same
    holds when no reply comes and the caller gets [None]. *)
Example pending_entry_after_cycle :
  let running := set_process
                   (Some {| cmd := ["katago"]; running := true; stdin := [] |})
                   c_new in
  let served := analyze_position loads_test dumps_test world_ok
                  [Stdout (Ok "reply u1")] new_game 100 true false 10
                  running in
  let timed_out := analyze_position loads_test dumps_test world_ok
                     [Stdout (Ok "not json")] new_game 100 true false 10
                     running in
  fst served = Ok (Some (_parse_response (reply_of "u1") new_game)) /\
  pending_requests (snd served) !! "u1" = Some 0%nat /\
  fst timed_out = Ok None /\
  pending_requests (snd timed_out) !! "u1" = Some 0%nat.
Proof. split_and!; reflexivity. Qed.

(** ** The invariant holds in every state a client reaches *)

Lemma wf_intro (c : Client) :
  (forall r h, pending_requests c !! r = Some h ->
               (h < length (events c))%nat) ->
  (forall r1 r2 h, pending_requests c !! r1 = Some h ->
                   pending_requests c !! r2 = Some h -> r1 = r2) ->
  wf c.
Proof.
  intros H1 H2. split.
  - intros r h Hr. by eapply H1.
  - intros r1 h1 Hr1 r2 h2 Hr2 <-. by eapply H2.
Qed.

(** Fewer entries and more events keep the invariant. *)
Lemma wf_mono (c c' : Client) :
  wf c ->
  (forall r h, pending_requests c' !! r = Some h ->
               pending_requests c !! r = Some h) ->
  (length (events c) <= length (events c'))%nat ->
  wf c'.
Proof.
  intros Hwf Hsub Hlen. apply wf_intro.
  - intros r h Hr. apply Hsub in Hr.
    pose proof (wf_lookup_lt c r h Hwf Hr). lia.
  - intros r1 r2 h Hr1 Hr2. apply Hsub in Hr1, Hr2.
    by eapply wf_lookup_inj.
Qed.

(** Registering an identifier with a new event keeps the invariant. *)
Lemma wf_register (rid : string) (c : Client) :
  wf c ->
  wf (set_pending_requests
        (<[rid := length (events c)]> (pending_requests c))
        (set_events (events c ++ [false]) c)).
Proof.
  intros Hwf. apply wf_intro; simpl.
  - intros r h Hr. rewrite length_app. simpl.
    apply lookup_insert_Some in Hr as [[_ <-]|[_ Hr]]; [lia|].
    pose proof (wf_lookup_lt c r h Hwf Hr). lia.
  - intros r1 r2 h Hr1 Hr2.
    apply lookup_insert_Some in Hr1 as [[<- <-]|[Hne1 Hr1]];
      apply lookup_insert_Some in Hr2 as [[<- Hh]|[Hne2 Hr2]]; try done.
    + pose proof (wf_lookup_lt c r2 _ Hwf Hr2). lia.
    + subst h. pose proof (wf_lookup_lt c r1 _ Hwf Hr1). lia.
    + by eapply wf_lookup_inj.
Qed.

Lemma wf_start w c : wf c -> wf (snd (start w c)).
Proof.
  intros Hwf. pose proof (start_frame w c) as H. cbv zeta in H.
  destruct H as (Hp & _ & He & _). unfold wf. by rewrite Hp, He.
Qed.

Lemma wf_send_query json_dumps w query c :
  wf c -> wf (snd (_send_query json_dumps w query c)).
Proof.
  intros Hwf. unfold _send_query.
  assert (Hs : wf (snd (if negb (_is_alive c) then start w c
                        else (Ok (), c)))).
  { destruct (_is_alive c); simpl; [done|]. by apply wf_start. }
  destruct (if negb (_is_alive c) then start w c else (Ok (), c))
    as [[[]|e] c1]; simpl in Hs; [|done].
  destruct (_is_alive c1); simpl; [|done].
  pose proof (wf_register (get (q_id query) (uuid_send w)) c1 Hs) as Hreg.
  destruct (process c1) as [p|]; [|done].
  destruct (write_outcome w) as [[]|e]; [done|].
  destruct (is_OSError e); [|done].
  simpl. eapply wf_mono; [exact Hreg|..]; simpl.
  - intros r h Hr. apply lookup_delete_Some in Hr as [_ Hr]. done.
  - done.
Qed.

Lemma wf_wait json_loads rid during c :
  wf c -> wf (snd (_wait_for_response json_loads rid during c)).
Proof.
  intros Hwf. unfold _wait_for_response.
  destruct (pending_requests c !! rid) as [h|]; [|done].
  pose proof (event_wait_wf json_loads h during c Hwf) as Hwf'.
  destruct (event_wait json_loads h during c) as [[] c']; done.
Qed.

(** ** A query that was sent is registered *)

(** X5. When [_send_query] returns an identifier, it is the ["id"] of the
    query, or the generated one when the query had none; the table maps it
    to an event made for this query, which is not set; and the line of the
    query, with that identifier in it, is the last one written to the
    process. *)
Lemma send_query_registers json_dumps w query c rid c' :
  _send_query json_dumps w query c = (Ok rid, c') ->
  rid = get (q_id query) (uuid_send w) /\
  exists h p,
    pending_requests c' !! rid = Some h /\
    is_set h c' = false /\
    process c' = Some p /\
    last (stdin p) = Some (json_dumps (set_q_id (Some rid) query) ++ newline).
Proof.
  unfold _send_query.
  destruct (if negb (_is_alive c) then start w c else (Ok (), c))
    as [[[]|e] c1]; [|done].
  destruct (_is_alive c1); simpl; [|done].
  destruct (process c1) as [p|]; [|done].
  destruct (write_outcome w) as [[]|e].
  - intros [= <- <-]. split; [done|].
    eexists _, _. split_and!.
    + simpl. by rewrite lookup_insert_eq.
    + unfold is_set. simpl.
      by rewrite lookup_app_r, Nat.sub_diag.
    + done.
    + cbn [stdin]. apply last_snoc.
  - by destruct (is_OSError e).
Qed.

(** * Further properties of the client *)

(** ** The error stream *)

(** X1. While there is a process, [_read_stderr] appends every line it
    reads, stripped and in order (blank lines too), until the stream ends
    or a read fails; nothing is ever dropped from [_stderr_lines], and the
    tables, the events and the process are as before. *)
Theorem read_stderr_appends (reads : list (outcome string)) (c : Client) :
  is_Some (process c) ->
  let c' := _read_stderr reads c in
  _stderr_lines c'
  = (_stderr_lines c ++ (strip <$> lines_before_end reads))%list /\
  pending_requests c' = pending_requests c /\
  responses c' = responses c /\
  events c' = events c /\
  process c' = process c.
Proof.
  intros [p Hp]. cbv zeta. revert c Hp.
  induction reads as [|read reads IH]; intros c Hp.
  - simpl. rewrite Hp. by rewrite app_nil_r.
  - simpl. rewrite Hp. destruct read as [line|e]; simpl.
    + destruct (decide (line = "")); simpl; [by rewrite app_nil_r|].
      destruct (IH (set_stderr_lines (_stderr_lines c ++ [strip line]) c))
        as (H1 & H2 & H3 & H4 & H5); [done|].
      rewrite H1, H2, H3, H4, H5. simpl. by rewrite <- app_assoc.
    + by rewrite app_nil_r.
Qed.

(** Two lines, one of them blank, then the end of the stream. *)
Lemma read_stderr_appends_witness :
  _stderr_lines
    (_read_stderr [Ok ("  CUDA error " ++ newline); Ok newline; Ok "";
                   Ok "never read"] c_two_pending)
  = ["loading model"; "out of memory"; "CUDA error"; ""].
Proof.
  exact (proj1 (read_stderr_appends
                  [Ok ("  CUDA error " ++ newline); Ok newline; Ok "";
                   Ok "never read"] c_two_pending
                  (ex_intro _ _ eq_refl))).
Defined.

(** ** Waiting for a reply *)

Section Delivery.

Variable json_loads : string -> outcome json.

Lemma event_wait_signaled h during c :
  fst (event_wait json_loads h during c) = true ->
  is_set h (snd (event_wait json_loads h during c)) = true.
Proof.
  revert c. induction during as [|a during IH]; intros c; simpl;
    destruct (is_set h c) eqn:E; try done.
  apply IH.
Qed.

Lemma event_wait_not_signaled h during c :
  fst (event_wait json_loads h during c) = false ->
  is_set h (snd (event_wait json_loads h during c)) = false.
Proof.
  revert c. induction during as [|a during IH]; intros c; simpl;
    destruct (is_set h c) eqn:E; try done.
  apply IH.
Qed.

Lemma event_wait_app h before after c :
  fst (event_wait json_loads h before c) = false ->
  event_wait json_loads h (before ++ after) c
  = event_wait json_loads h after (snd (event_wait json_loads h before c)).
Proof.
  revert c. induction before as [|a before IH]; intros c; simpl.
  - destruct (is_set h c) eqn:E; [done|]. intros _.
    destruct after; simpl; by rewrite E.
  - destruct (is_set h c); [done|]. apply IH.
Qed.

Lemma run_activity_is_set a h c :
  is_set h c = true -> is_set h (run_activity json_loads a c) = true.
Proof.
  intros Hset. destruct a as [read|read]; simpl;
    destruct (process c); try done.
  - pose proof (read_step_effect json_loads read c) as Heff.
    cbv zeta in Heff.
    destruct Heff as [->|(l & r & k & _ & _ & _ & _ & ->)]; [done|].
    destruct (pending_requests c !! k) as [h'|]; [|done].
    unfold is_set, event_set in *. simpl.
    destruct (events c !! h) as [b|] eqn:Hh; [|done]. subst b.
    destruct (decide (h = h')) as [<-|Hne].
    + rewrite list_lookup_insert_eq; [done|]. by eapply lookup_lt_Some.
    + by rewrite list_lookup_insert_ne, Hh.
  - pose proof (stderr_step_fields read c) as H. cbv zeta in H.
    destruct H as (_ & _ & H & _). unfold is_set. by rewrite H.
Qed.

Lemma run_activity_no_reply a rid c :
  no_reply_for json_loads rid a ->
  responses (run_activity json_loads a c) !! rid = responses c !! rid.
Proof.
  intros Hno. destruct a as [read|read]; simpl;
    destruct (process c); try done.
  - pose proof (read_step_effect json_loads read c) as Heff.
    cbv zeta in Heff.
    destruct Heff as [->|(l & r & k & -> & Hparse & Hid & _ & ->)]; [done|].
    assert (Hk : k <> rid).
    { intros ->. by eapply (Hno l r). }
    destruct (pending_requests c !! k); simpl; by rewrite lookup_insert_ne.
  - pose proof (stderr_step_fields read c) as H. cbv zeta in H.
    destruct H as (_ & _ & _ & H). by rewrite H.
Qed.

Lemma run_activities_is_set l h c :
  is_set h c = true -> is_set h (run_activities json_loads l c) = true.
Proof.
  revert c. induction l as [|a l IH]; intros c Hset; simpl; [done|].
  by apply IH, run_activity_is_set.
Qed.

Lemma run_activities_pending l c :
  pending_requests (run_activities json_loads l c) = pending_requests c.
Proof.
  revert c. induction l as [|a l IH]; intros c; simpl; [done|].
  rewrite IH. apply run_activity_pending.
Qed.

Lemma run_activities_no_reply l rid c :
  Forall (no_reply_for json_loads rid) l ->
  responses (run_activities json_loads l c) !! rid = responses c !! rid.
Proof.
  intros Hl. revert c. induction Hl as [|a l Ha Hl IH]; intros c; simpl;
    [done|].
  rewrite IH. by apply run_activity_no_reply.
Qed.

(** X2. A reply is handed out once.  When a wait has returned a reply,
    the cache has no entry left for the identifier and the event stays
    set, whatever the reader threads do afterwards ([between]): a later
    wait for the same identifier does not wait at all, and returns what
    the cache then holds for the identifier.  That is [None], unless a
    further reply with the same identifier has been read in between. *)
Theorem wait_delivers_once (rid : string)
    (during between during' : list activity) (reply : Response)
    (c c1 : Client) :
  _wait_for_response json_loads rid during c = (Some reply, c1) ->
  let c2 := run_activities json_loads between c1 in
  responses c1 !! rid = None /\
  _wait_for_response json_loads rid during' c2
  = (responses c2 !! rid, set_responses (delete rid (responses c2)) c2) /\
  (Forall (no_reply_for json_loads rid) between ->
   _wait_for_response json_loads rid during' c2 = (None, c2)).
Proof.
  unfold _wait_for_response at 1.
  destruct (pending_requests c !! rid) as [h|] eqn:Hh; [|done].
  pose proof (event_wait_pending json_loads h during c) as Hpend.
  pose proof (event_wait_signaled h during c) as Hset.
  destruct (event_wait json_loads h during c) as [[] c0]; [|done].
  simpl in Hpend, Hset. intros [= Hreply <-]. cbv zeta.
  set (c1 := set_responses (delete rid (responses c0)) c0).
  assert (Hgone : responses c1 !! rid = None)
    by (unfold c1; simpl; by rewrite lookup_delete_eq).
  assert (Hset1 : is_set h c1 = true) by (by apply Hset).
  assert (Hh1 : pending_requests c1 !! rid = Some h)
    by (unfold c1; simpl; by rewrite Hpend).
  pose proof (run_activities_is_set between h c1 Hset1) as Hset2.
  pose proof (run_activities_pending between c1) as Hpend2.
  assert (Hwait : forall c2,
            pending_requests c2 !! rid = Some h -> is_set h c2 = true ->
            _wait_for_response json_loads rid during' c2
            = (responses c2 !! rid,
               set_responses (delete rid (responses c2)) c2)).
  { intros c2 Hh2 Hs2. unfold _wait_for_response. rewrite Hh2.
    by rewrite event_wait_set. }
  split_and!.
  - done.
  - apply Hwait; [by rewrite Hpend2 | done].
  - intros Hno. rewrite Hwait; [|by rewrite Hpend2 | done].
    rewrite (run_activities_no_reply between rid c1 Hno), Hgone.
    f_equal. rewrite delete_id
      by (by rewrite (run_activities_no_reply between rid c1 Hno)).
    by destruct (run_activities json_loads between c1).
Qed.

Lemma cache_ok_read_step read c :
  cache_ok c -> cache_ok (snd (_read_responses_step json_loads read c)).
Proof.
  intros Hok.
  pose proof (read_step_effect json_loads read c) as Heff. cbv zeta in Heff.
  destruct Heff as [->|(l & r & k & _ & _ & Hid & _ & ->)]; [done|].
  assert (cache_ok (set_responses (<[k := r]> (responses c)) c)).
  { unfold cache_ok. simpl. by apply map_Forall_insert_2. }
  by destruct (pending_requests c !! k).
Qed.

Lemma cache_ok_run_activity a c :
  cache_ok c -> cache_ok (run_activity json_loads a c).
Proof.
  intros Hok. destruct a as [read|read]; simpl;
    destruct (process c); try done.
  - by apply cache_ok_read_step.
  - pose proof (stderr_step_fields read c) as H. cbv zeta in H.
    destruct H as (_ & _ & _ & H). unfold cache_ok. by rewrite H.
Qed.

Lemma cache_ok_event_wait h during c :
  cache_ok c -> cache_ok (snd (event_wait json_loads h during c)).
Proof.
  revert c. induction during as [|a during IH]; intros c Hok; simpl;
    destruct (is_set h c); try done.
  by apply IH, cache_ok_run_activity.
Qed.

Lemma wait_returns_own_reply_aux (rid : string) (during : list activity)
    (reply : Response) (c c' : Client) :
  cache_ok c ->
  _wait_for_response json_loads rid during c = (Some reply, c') ->
  r_id reply = Some rid /\ responses c' !! rid = None /\ cache_ok c'.
Proof.
  intros Hok. unfold _wait_for_response.
  destruct (pending_requests c !! rid) as [h|]; [|done].
  pose proof (cache_ok_event_wait h during c Hok) as Hok'.
  destruct (event_wait json_loads h during c) as [[] c1]; [|done].
  simpl in *. intros [= Hreply <-]. split_and!.
  - by apply (Hok' rid reply).
  - simpl. by rewrite lookup_delete_eq.
  - unfold cache_ok. simpl. by apply map_Forall_delete.
Qed.

(** X3. Replies are not delivered across identifiers: when every cached
    reply sits under the identifier it carries (as the reader stores
    them), the reply that a wait for [rid] returns carries [rid], whatever
    the order in which replies come in. *)
Theorem wait_returns_own_reply (rid : string) (during : list activity)
    (reply : Response) (c c' : Client) :
  cache_ok c ->
  _wait_for_response json_loads rid during c = (Some reply, c') ->
  r_id reply = Some rid /\ cache_ok c'.
Proof.
  intros Hok. unfold _wait_for_response.
  destruct (pending_requests c !! rid) as [h|]; [|done].
  pose proof (cache_ok_event_wait h during c Hok) as Hok'.
  destruct (event_wait json_loads h during c) as [[] c1]; [|done].
  simpl in *. intros [= Hreply <-]. split.
  - by apply (Hok' rid reply).
  - unfold cache_ok. simpl. by apply map_Forall_delete.
Qed.

(** Whether the reader goes on after a read does not depend on the state
    of the client. *)
Lemma read_step_goes_on_any_state read c c' :
  fst (_read_responses_step json_loads read c)
  = fst (_read_responses_step json_loads read c').
Proof.
  unfold _read_responses_step.
  destruct read as [line|e]; [|done].
  destruct (decide (line = "")); [done|].
  destruct (decide (strip line = "")); [done|].
  destruct (json_loads (strip line)) as [[reply|]|e]; [|done|by destruct e].
  destruct (r_id reply) as [k|]; [|done].
  destruct (decide (k = "")); [done|].
  simpl. by destruct (pending_requests c !! k), (pending_requests c' !! k).
Qed.

(** X4. A waiter gets its reply whatever comes first.  Let the reader
    read [before], the reply line for [rid] and then [after], where no read
    of [before] ends the loop (the reader thread would be gone) and none
    sets the event of [rid]; the wait for [rid] returns that reply. *)
Theorem wait_gets_reply (rid : string) (h : nat) (reply : Response)
    (before after : list (outcome string)) (good : string) (c : Client) :
  wf c ->
  is_Some (process c) ->
  pending_requests c !! rid = Some h ->
  Forall (fun read => fst (_read_responses_step json_loads read c) = true)
    before ->
  fst (event_wait json_loads h (Stdout <$> before) c) = false ->
  strip good <> "" ->
  json_loads (strip good) = Ok (JObject reply) ->
  r_id reply = Some rid ->
  rid <> "" ->
  fst (_wait_for_response json_loads rid
         (Stdout <$> (before ++ Ok good :: after)%list) c) = Some reply.
Proof.
  intros Hwf [p Hp] Hh _ Hunset Hgood Hparse Hid Hrid.
  unfold _wait_for_response. rewrite Hh, fmap_app, fmap_cons.
  rewrite event_wait_app by done.
  pose proof (event_wait_not_signaled h _ c Hunset) as Hunset'.
  pose proof (event_wait_wf json_loads h (Stdout <$> before) c Hwf) as Hwf'.
  pose proof (event_wait_pending json_loads h (Stdout <$> before) c) as Hpend.
  pose proof (event_wait_process json_loads h (Stdout <$> before) c) as Hproc.
  set (c1 := snd (event_wait json_loads h (Stdout <$> before) c)) in *.
  rewrite Hp in Hproc. rewrite <- Hpend in Hh.
  rewrite event_wait_unset by done.
  rewrite (run_activity_stdout _ _ _ p Hproc).
  rewrite (read_reply_line json_loads good reply rid c1 Hgood Hparse Hid Hrid).
  cbn [snd]. rewrite Hh.
  rewrite event_wait_set
    by (apply is_set_event_set; simpl; by eapply wf_lookup_lt).
  cbn [fst snd]. simpl. by rewrite lookup_insert_eq.
Qed.

End Delivery.

(** The replies for "u2" and "u1" come in that order, after a line that
    is not JSON: the wait for "u1" returns the reply for "u1". *)
Lemma wait_gets_reply_witness :
  fst (_wait_for_response loads_test "u1"
         [Stdout (Ok "not json"); Stdout (Ok "reply u2");
          Stdout (Ok "reply u1")] c_two_pending)
  = Some (reply_of "u1").
Proof.
  apply (wait_gets_reply loads_test "u1" 0%nat (reply_of "u1")
           [Ok "not json"; Ok "reply u2"] [] "reply u1" c_two_pending).
  - apply (bool_decide_unpack _). by vm_compute.
  - by eexists.
  - reflexivity.
  - repeat constructor.
  - reflexivity.
  - done.
  - reflexivity.
  - reflexivity.
  - done.
Defined.

(** After the wait for "u1" has returned its reply, the reply for "u2"
    and a line of the error stream are read; a second wait for "u1" then
    returns [None] at once. *)
Lemma wait_delivers_once_witness :
  let c1 := snd (_wait_for_response loads_test "u1"
                   [Stdout (Ok "reply u1")] c_two_pending) in
  let c2 := run_activities loads_test
              [Stdout (Ok "reply u2"); Stderr (Ok "warning")] c1 in
  _wait_for_response loads_test "u1" [Stdout (Ok "not json")] c2 = (None, c2).
Proof.
  cbv zeta.
  apply (wait_delivers_once loads_test "u1" [Stdout (Ok "reply u1")]
           [Stdout (Ok "reply u2"); Stderr (Ok "warning")]
           [Stdout (Ok "not json")] (reply_of "u1") c_two_pending _ eq_refl).
  repeat constructor; intros line reply [= <-]; vm_compute;
    by intros [= <-].
Defined.

(** When the engine sends a second reply for "u1" in between, the second
    wait returns it. *)
Example wait_after_second_reply :
  let c1 := snd (_wait_for_response loads_test "u1"
                   [Stdout (Ok "reply u1")] c_two_pending) in
  let c2 := run_activities loads_test [Stdout (Ok "reply u1")] c1 in
  fst (_wait_for_response loads_test "u1" [] c2) = Some (reply_of "u1").
Proof. reflexivity. Qed.

(** Both replies come in; the wait for "u2" returns the reply that
    carries "u2". *)
Lemma wait_returns_own_reply_witness :
  fst (_wait_for_response loads_test "u2"
         [Stdout (Ok "reply u1"); Stdout (Ok "reply u2")] c_two_pending)
  = Some (reply_of "u2") /\
  r_id (reply_of "u2") = Some "u2".
Proof.
  split; [reflexivity|].
  assert (Hok : cache_ok c_two_pending)
    by (apply (bool_decide_unpack _); by vm_compute).
  exact (proj1 (wait_returns_own_reply loads_test "u2"
                  [Stdout (Ok "reply u1"); Stdout (Ok "reply u2")]
                  (reply_of "u2") c_two_pending _ Hok eq_refl)).
Defined.

(** ** Sending, starting and stopping *)

Section SendingMore.

Variable json_dumps : Query -> string.

(** What [_send_query] does before it registers the query: it starts the
    process when there is none alive. *)
Lemma send_query_started w c :
  _is_alive c = true \/ fst (start w c) = Ok () ->
  exists c1 p,
    (if negb (_is_alive c) then start w c else (Ok (), c)) = (Ok (), c1) /\
    process c1 = Some p /\ running p = true /\
    pending_requests c1 = pending_requests c /\
    responses c1 = responses c /\
    events c1 = events c.
Proof.
  intros Hstart. destruct (_is_alive c) eqn:Ha; simpl.
  - exists c. unfold _is_alive in Ha.
    destruct (process c) as [p|]; [|done]. by exists p.
  - destruct Hstart as [|Hok]; [done|].
    pose proof (start_ok_alive w c Hok) as Halive.
    pose proof (start_frame w c) as Hframe. cbv zeta in Hframe.
    destruct Hframe as (H1 & H2 & H3 & _).
    destruct (start w c) as [r c1]. simpl in *. subst r.
    exists c1. unfold _is_alive in Halive.
    destruct (process c1) as [p|]; [|done]. by exists p.
Qed.

(** X6. A write that fails with an exception that is no [OSError] (a
    [ValueError] on a closed stream) is not handled: the exception leaves
    [_send_query] as it is, nothing is written, and the entry made for the
    query stays in the table with its event unset. *)
Theorem send_query_other_error (w : World) (query : Query) (c : Client)
    (e : exn) :
  _is_alive c = true \/ fst (start w c) = Ok () ->
  write_outcome w = Raise e ->
  is_OSError e = false ->
  let request_id := get (q_id query) (uuid_send w) in
  let c' := snd (_send_query json_dumps w query c) in
  fst (_send_query json_dumps w query c) = Raise e /\
  pending_requests c'
  = <[request_id := length (events c)]> (pending_requests c) /\
  is_set (length (events c)) c' = false.
Proof.
  intros Hstart Hwrite Hos. cbv zeta. unfold _send_query.
  destruct (send_query_started w c Hstart)
    as (c1 & p & -> & Hp & Hrun & Hpend & _ & Hev).
  unfold _is_alive. rewrite Hp, Hrun. simpl.
  rewrite Hp, Hwrite, Hos. simpl. rewrite Hpend, Hev.
  split_and!; [done|done|].
  unfold is_set. simpl. by rewrite lookup_app_r, Nat.sub_diag.
Qed.

(** X7. When no process is alive and [start] fails, [_send_query] raises
    what [start] raised and registers nothing: no event is made and the
    table is as before. *)
Theorem send_query_start_fails (w : World) (query : Query) (c : Client)
    (e : exn) :
  fst (start w c) = Raise e ->
  let c' := snd (_send_query json_dumps w query c) in
  fst (_send_query json_dumps w query c) = Raise e /\
  pending_requests c' = pending_requests c /\
  events c' = events c /\
  process c' = process (snd (start w c)).
Proof.
  intros Hfail. cbv zeta. unfold _send_query.
  assert (Ha : _is_alive c = false).
  { unfold start in Hfail. by destruct (_is_alive c). }
  rewrite Ha. simpl.
  pose proof (start_frame w c) as Hframe. cbv zeta in Hframe.
  destruct Hframe as (H1 & _ & H3 & _).
  destruct (start w c) as [r c1]. simpl in *. subst r. done.
Qed.


End SendingMore.

(** What [start] does from a state without a running process depends on
    the paths and the number of threads only. *)
Lemma start_depends_on_paths w c1 c2 :
  _is_alive c1 = false -> _is_alive c2 = false ->
  katago_path c1 = katago_path c2 -> model_path c1 = model_path c2 ->
  config_path c1 = config_path c2 ->
  analysis_threads c1 = analysis_threads c2 ->
  fst (start w c1) = fst (start w c2) /\
  (fst (start w c2) = Ok () ->
   process (snd (start w c1)) = process (snd (start w c2))).
Proof.
  intros Ha1 Ha2 Hk Hm Hc Ht. unfold start. rewrite Ha1, Ha2. simpl.
  rewrite Hk, Hm, Hc, Ht.
  destruct (path_exists w (katago_path c2)); simpl; [|done].
  destruct (path_exists w (model_path c2)); simpl; [|done].
  destruct (popen_error w); simpl; [done|].
  destruct (alive_after_grace w); simpl; done.
Qed.

Lemma start_fails_not_alive w c e :
  fst (start w c) = Raise e -> _is_alive (snd (start w c)) = false.
Proof.
  intros Hfail.
  assert (Ha : _is_alive c = false).
  { unfold start in Hfail. by destruct (_is_alive c). }
  unfold start in *. rewrite Ha in *. unfold _is_alive in *. simpl in *.
  destruct (path_exists w (katago_path c)); simpl in *; [|done].
  destruct (path_exists w (model_path c)); simpl in *; [|done].
  destruct (popen_error w); simpl in *; [done|].
  by destruct (alive_after_grace w).
Qed.

(** X9. A failed [start] can be tried again: after a failure the client
    is not alive, and a later [start] succeeds or fails as it would have
    from the state before, and launches the same process when it
    succeeds. *)
Theorem start_retry (w w' : World) (c : Client) (e : exn) :
  fst (start w' c) = Raise e ->
  let c' := snd (start w' c) in
  _is_alive c' = false /\
  fst (start w c') = fst (start w c) /\
  (fst (start w c) = Ok () ->
   process (snd (start w c')) = process (snd (start w c))).
Proof.
  intros Hfail. cbv zeta.
  assert (Ha : _is_alive c = false).
  { unfold start in Hfail. by destruct (_is_alive c). }
  assert (Hc' : _is_alive (snd (start w' c)) = false /\
                katago_path (snd (start w' c)) = katago_path c /\
                model_path (snd (start w' c)) = model_path c /\
                config_path (snd (start w' c)) = config_path c /\
                analysis_threads (snd (start w' c)) = analysis_threads c).
  { unfold start in *. rewrite Ha in *. unfold _is_alive in *. simpl in *.
    destruct (path_exists w' (katago_path c)); simpl in *; [|done].
    destruct (path_exists w' (model_path c)); simpl in *; [|done].
    destruct (popen_error w'); simpl in *; [done|].
    by destruct (alive_after_grace w'). }
  destruct Hc' as (Ha' & Hk & Hm & Hcp & Hat).
  split; [done|]. by apply start_depends_on_paths.
Qed.

(** A query without identifier gets "u2", the generated one, and the
    third event. *)
Lemma send_query_registers_witness :
  let r := _send_query dumps_test world_ok (query_of None) c_two_pending in
  fst r = Ok "u2" /\
  exists h p,
    pending_requests (snd r) !! "u2" = Some h /\
    is_set h (snd r) = false /\
    process (snd r) = Some p /\
    last (stdin p) = Some ("query u2" ++ newline).
Proof.
  cbv zeta. split; [reflexivity|].
  exact (proj2 (send_query_registers dumps_test world_ok (query_of None)
                  c_two_pending "u2" _ eq_refl)).
Defined.

(** The write raises [ValueError]: the entry of "u3" stays. *)
Lemma send_query_other_error_witness :
  let r := _send_query dumps_test world_closed_stream (query_of (Some "u3"))
             c_two_pending in
  fst r = Raise ValueError /\
  pending_requests (snd r) !! "u3" = Some 2%nat.
Proof.
  cbv zeta.
  destruct (send_query_other_error dumps_test world_closed_stream
              (query_of (Some "u3")) c_two_pending ValueError)
    as (H1 & H2 & _); [left; reflexivity | reflexivity | reflexivity |].
  split; [exact H1|]. rewrite H2. reflexivity.
Defined.

(** A new client in a world without the model file: nothing is
    registered. *)
Lemma send_query_start_fails_witness :
  let r := _send_query dumps_test
             (world_without "/usr/share/katago/model.bin.gz")
             (query_of (Some "u3")) c_new in
  fst r = Raise (FileNotFoundError
                   "KataGo model not found: /usr/share/katago/model.bin.gz")
  /\ pending_requests (snd r) = ∅.
Proof.
  cbv zeta.
  destruct (send_query_start_fails dumps_test
              (world_without "/usr/share/katago/model.bin.gz")
              (query_of (Some "u3")) c_new _ eq_refl)
    as (H1 & H2 & _).
  split; [exact H1 | exact H2].
Defined.


(** The engine exits at once; the next [start], in a world where it
    runs, succeeds. *)
Lemma start_retry_witness :
  fst (start world_dies c_new)
  = Raise (RuntimeError "KataGo process died immediately. Stderr: no GPU") /\
  fst (start world_ok (snd (start world_dies c_new))) = Ok ().
Proof.
  split; [reflexivity|].
  destruct (start_retry world_ok world_dies c_new _ eq_refl)
    as (_ & H & _).
  rewrite H. reflexivity.
Defined.

(** ** A whole analysis *)

Lemma for_each_ok {A B} (f : A -> outcome B) l ys x :
  for_each f l = Ok ys -> x ∈ l -> exists y, f x = Ok y.
Proof.
  revert ys. induction l as [|x' l IH]; intros ys; simpl.
  - intros _ Hin. by apply elem_of_nil in Hin.
  - destruct (f x') as [y|e] eqn:Hx; simpl; [|done].
    destruct (for_each f l) as [ys'|e]; simpl; [|done].
    intros _ [->|Hin]%elem_of_cons; [by exists y|]. by eapply IH.
Qed.

Section Analysis.

Variable json_loads : string -> outcome json.
Variable json_dumps : Query -> string.

Lemma send_query_ok_frame w query c rid c' :
  _send_query json_dumps w query c = (Ok rid, c') ->
  rid = get (q_id query) (uuid_send w) /\ responses c' = responses c.
Proof.
  unfold _send_query.
  pose proof (start_frame w c) as Hframe. cbv zeta in Hframe.
  destruct Hframe as (_ & Hresp & _).
  assert (Hr : responses
                 (snd (if negb (_is_alive c) then start w c else (Ok (), c)))
               = responses c) by (by destruct (_is_alive c)).
  destruct (if negb (_is_alive c) then start w c else (Ok (), c))
    as [[[]|e] c1]; [|done].
  simpl in Hr. destruct (_is_alive c1); simpl; [|done].
  destruct (process c1) as [p|]; [|done].
  destruct (write_outcome w) as [[]|e].
  - by intros [= <- <-].
  - by destruct (is_OSError e).
Qed.

(** X10. What [analyze_position] returns is the decoding of a reply to
    its own query.  When every cached reply sits under the identifier it
    carries and [analyze_position] returns a result, the result decodes a
    reply that carries the identifier generated for this call; it has that
    identifier and the player to move of the position; and the reply has
    left the cache. *)
Theorem analyze_position_own_reply (w : World) (during : list activity)
    (state : GameState) (max_visits : Z)
    (include_ownership include_policy : bool) (analysis_pv_len : Z)
    (c c' : Client) (res : AnalysisResult) :
  cache_ok c ->
  analyze_position json_loads json_dumps w during state max_visits
    include_ownership include_policy analysis_pv_len c
  = (Ok (Some res), c') ->
  exists response,
    r_id response = Some (uuid_build w) /\
    res = _parse_response response state /\
    id res = uuid_build w /\
    KataGoClient.current_player res = SgfReader.current_player state /\
    responses c' !! uuid_build w = None /\
    cache_ok c'.
Proof.
  intros Hok. unfold analyze_position.
  destruct (_build_query _ _ _ _ _ _) as [query|e] eqn:Hbuild; [|done].
  assert (Hid : q_id query = Some (uuid_build w)).
  { unfold _build_query in Hbuild.
    destruct (for_each _ _); simpl in Hbuild; [|done].
    by injection Hbuild as <-. }
  destruct (_send_query json_dumps w query c) as [[rid|e] c1] eqn:Hsend;
    [|done].
  apply send_query_ok_frame in Hsend as [-> Hresp].
  rewrite Hid. simpl get.
  assert (Hok1 : cache_ok c1) by (unfold cache_ok; by rewrite Hresp).
  destruct (_wait_for_response json_loads (uuid_build w) during c1)
    as [[response|] c2] eqn:Hwait; [|done].
  intros [= <- <-].
  pose proof (wait_returns_own_reply_aux json_loads (uuid_build w) during
                response c1 c2 Hok1 Hwait) as (Hrid & Hgone & Hok2).
  exists response. split_and!; try done.
  simpl. by rewrite Hrid.
Qed.

(** X11. A move whose column has no letter (the letters stop at the
    19th column) makes [analyze_position] raise before it touches the
    client: no process is started, nothing is sent and the state is as
    before.  The exception is [IndexError] when the row numbers of the
    game are within the limit of [str]; otherwise it can be the
    [ValueError] of such a row. *)
Theorem analyze_position_bad_column (w : World) (during : list activity)
    (state : GameState) (max_visits : Z)
    (include_ownership include_policy : bool) (analysis_pv_len : Z)
    (c : Client) (color : string) (row col : Z) :
  (color, Some (row, col)) ∈ moves state ->
  ~ (-19 <= col < 19) ->
  exists e,
    analyze_position json_loads json_dumps w during state max_visits
      include_ownership include_policy analysis_pv_len c
    = (Raise e, c) /\
    (e = IndexError \/ e = ValueError) /\
    ((forall color' row' col',
        (color', Some (row', col')) ∈ moves state ->
        within_str_limit (board_size state - row')) ->
     e = IndexError).
Proof.
  intros Hin Hcol. unfold analyze_position, _build_query.
  destruct (for_each _ _) as [ms|e] eqn:E; simpl.
  - destruct (for_each_ok _ _ _ _ E Hin) as [y Hy].
    simpl in Hy. unfold coord_to_gtp in Hy.
    by rewrite getitem_letters_out_of_range in Hy.
  - exists e. split; [done|].
    apply for_each_raises in E as (m & Hm & Hraise).
    apply encode_move_raises in Hraise as (color' & row' & col' & -> & Hg).
    apply coord_to_gtp_raises in Hg as [[-> _]|(-> & _ & Hbeyond)].
    + split; [by left | done].
    + split; [by right|]. intros Hrows. destruct Hbeyond.
      by eapply Hrows.
Qed.

End Analysis.

(** * Further properties of the coordinates and of the board *)

(** ** SGF coordinates *)

(** X12. [coord_to_sgf] and [sgf_to_coord] are inverse to each other on
    every coordinate that [chr] accepts (any coordinate of a board among
    them): the point has two characters, the column first, and decodes to
    the coordinate, whatever the board size. *)
Theorem sgf_coord_roundtrip (row col board_size : Z) :
  is_code_point (97 + row) ->
  is_code_point (97 + col) ->
  coord_to_sgf row col board_size = Some [97 + col; 97 + row] /\
  sgf_to_coord [97 + col; 97 + row] = Some (row, col).
Proof.
  unfold is_code_point. intros Hrow Hcol. split.
  - unfold coord_to_sgf, chr.
    replace ((0 <=? 97 + col) && (97 + col <? 1114112)) with true
      by (symmetry; apply andb_true_intro; split;
          [apply Z.leb_le | apply Z.ltb_lt]; lia).
    replace ((0 <=? 97 + row) && (97 + row <? 1114112)) with true
      by (symmetry; apply andb_true_intro; split;
          [apply Z.leb_le | apply Z.ltb_lt]; lia).
    done.
  - unfold sgf_to_coord. simpl. do 2 f_equal; lia.
Qed.

(** The point "pd" (Q16 on a 19x19 board): row 3, column 15. *)
Lemma sgf_coord_roundtrip_witness :
  coord_to_sgf 3 15 19 = Some [112; 100] /\
  sgf_to_coord [112; 100] = Some (3, 15).
Proof. apply (sgf_coord_roundtrip 3 15 19); unfold is_code_point; lia. Defined.

(** X13. In the other direction, a point that [sgf_to_coord] accepts is
    encoded back to its first two characters: what follows them is
    ignored, and a point of fewer than two characters is refused. *)
Theorem sgf_point_decode_encode (sgf_point : list Z) (board_size : Z) :
  Forall is_code_point sgf_point ->
  match sgf_to_coord sgf_point with
  | Some (row, col) =>
      (2 <= length sgf_point)%nat /\
      coord_to_sgf row col board_size = Some (take 2 sgf_point)
  | None => (length sgf_point < 2)%nat
  end.
Proof.
  intros Hvalid. destruct sgf_point as [|c [|r rest]]; simpl; [lia..|].
  split; [lia|].
  inversion Hvalid as [|? ? Hc Hrest]; subst.
  inversion Hrest as [|? ? Hr _]; subst.
  unfold is_code_point in *. unfold coord_to_sgf, chr.
  replace (97 + (c - 97)) with c by lia.
  replace (97 + (r - 97)) with r by lia.
  replace ((0 <=? c) && (c <? 1114112)) with true
    by (symmetry; apply andb_true_intro; split;
        [apply Z.leb_le | apply Z.ltb_lt]; lia).
  replace ((0 <=? r) && (r <? 1114112)) with true
    by (symmetry; apply andb_true_intro; split;
        [apply Z.leb_le | apply Z.ltb_lt]; lia).
  done.
Qed.

(** The point "pdx": decoded as (3, 15), encoded back as "pd". *)
Lemma sgf_point_decode_encode_witness :
  sgf_to_coord [112; 100; 120] = Some (3, 15) /\
  coord_to_sgf 3 15 19 = Some [112; 100].
Proof.
  split; [reflexivity|].
  assert (H : Forall is_code_point [112; 100; 120])
    by (repeat constructor; unfold is_code_point; lia).
  exact (proj2 (sgf_point_decode_encode [112; 100; 120] 19 H)).
Defined.

(** ** Star points *)

(** X14. The star points are symmetric: whatever the size, a point is a
    star point exactly when its mirror images in the diagonal, in the
    horizontal axis and in the vertical axis are; and every star point is
    on the board. *)
Theorem star_points_symmetric (row col size : Z) :
  is_star_point col row size = is_star_point row col size /\
  is_star_point (size - 1 - row) col size = is_star_point row col size /\
  is_star_point row (size - 1 - col) size = is_star_point row col size /\
  (is_star_point row col size = true -> 0 <= row < size /\ 0 <= col < size).
Proof.
  assert (H3 : forall a b c x : Z,
             bool_decide (x ∈ [a; b; c])
             = (x =? a) || (x =? b) || (x =? c)).
  { intros a b c x. apply eq_true_iff_eq.
    rewrite bool_decide_eq_true, !orb_true_iff, !Z.eqb_eq.
    rewrite !elem_of_cons, elem_of_nil. tauto. }
  unfold is_star_point.
  destruct (Z.eqb_spec size 19) as [->|_];
    [|destruct (Z.eqb_spec size 13) as [->|_];
      [|destruct (Z.eqb_spec size 9) as [->|_]; [|done]]];
    rewrite !H3; split_and!;
    repeat match goal with
           | |- context [Z.eqb ?a ?b] => destruct (Z.eqb_spec a b)
           end; simpl; try done; try lia.
Qed.

(** ** GTP coordinates off the board *)

Lemma column_cases (col : Z) :
  0 <= col < 19 ->
  In col [0; 1; 2; 3; 4; 5; 6; 7; 8; 9; 10; 11; 12; 13; 14; 15; 16; 17; 18].
Proof. simpl. lia. Qed.

Lemma coord_to_gtp_column row col board_size :
  0 <= col < 19 ->
  within_str_limit (board_size - row) ->
  coord_to_gtp row col board_size
  = Ok (column_letter col ++ str_of_int (board_size - row)).
Proof.
  intros Hcol%column_cases Hn. simpl in Hcol. unfold coord_to_gtp.
  rewrite (py_str_within _ Hn).
  repeat (destruct Hcol as [<-|Hcol]; [reflexivity|]). done.
Qed.

Lemma coord_to_gtp_beyond row col board_size :
  0 <= col < 19 ->
  ~ within_str_limit (board_size - row) ->
  coord_to_gtp row col board_size = Raise ValueError.
Proof.
  intros Hcol%column_cases Hn. simpl in Hcol. unfold coord_to_gtp.
  rewrite (py_str_beyond _ Hn).
  repeat (destruct Hcol as [<-|Hcol]; [reflexivity|]). done.
Qed.

Lemma gtp_to_coord_column n col board_size :
  0 <= col < 19 ->
  within_str_limit n ->
  gtp_to_coord (column_letter col ++ str_of_int n) board_size
  = Ok (board_size - n, col) /\
  gtp_to_coord (lower (column_letter col) ++ str_of_int n) board_size
  = Ok (board_size - n, col).
Proof.
  intros Hcol%column_cases Hn. simpl in Hcol.
  repeat (destruct Hcol as [<-|Hcol];
          [split; by apply gtp_to_coord_letter|]). done.
Qed.

Lemma coord_to_gtp_wraps row col board_size :
  -19 <= col < 0 ->
  coord_to_gtp row col board_size = coord_to_gtp row (col + 19) board_size.
Proof.
  intros Hcol.
  assert (Hcases : In (col + 19) (Z.of_nat <$> seq 0 19))
    by (simpl; lia).
  simpl in Hcases.
  repeat (destruct Hcases as [Hc|Hcases];
          [replace col with (col + 19 - 19) at 1 by lia;
           rewrite <- Hc; reflexivity|]).
  done.
Qed.

Lemma lower_string_of_uint d :
  lower (NilEmpty.string_of_uint d) = NilEmpty.string_of_uint d.
Proof. induction d; simpl; unfold lower in *; simpl; by rewrite ?IHd. Qed.

Lemma lower_str_of_int n : lower (str_of_int n) = str_of_int n.
Proof.
  unfold str_of_int, NilZero.string_of_int, NilZero.string_of_uint.
  destruct (Z.to_int n) as [d|d]; destruct d; try done;
    unfold lower; simpl; f_equal; rewrite ?lower_string_of_uint;
    try apply lower_string_of_uint;
    by (f_equal; apply lower_string_of_uint).
Qed.

Lemma lower_app_char c s :
  lower (String c EmptyString ++ s) = lower (String c EmptyString) ++ lower s.
Proof. reflexivity. Qed.

(** X15. The round trip needs no board: for each of the 19 columns and
    for any row and any board size, in or out of the board, whose
    difference is within the limit of [str], the text of [coord_to_gtp] is
    decoded to the coordinate, and so is that text in lower case.  Beyond
    the limit [coord_to_gtp] raises [ValueError]. *)
Theorem gtp_roundtrip_any_row (row col board_size : Z) :
  0 <= col < 19 ->
  (within_str_limit (board_size - row) ->
   exists gtp,
     coord_to_gtp row col board_size = Ok gtp /\
     gtp_to_coord gtp board_size = Ok (row, col) /\
     gtp_to_coord (lower gtp) board_size = Ok (row, col)) /\
  (~ within_str_limit (board_size - row) ->
   coord_to_gtp row col board_size = Raise ValueError).
Proof.
  intros Hcol. split; [|by apply coord_to_gtp_beyond].
  intros Hn. eexists. split; [by apply coord_to_gtp_column|].
  replace (Ok (row, col))
    with (Ok (A := Z * Z) (board_size - (board_size - row), col))
    by (do 2 f_equal; lia).
  destruct (gtp_to_coord_column (board_size - row) col board_size Hcol Hn)
    as [H1 H2].
  split; [exact H1|].
  replace (lower (column_letter col ++ str_of_int (board_size - row)))
    with (lower (column_letter col) ++ str_of_int (board_size - row));
    [exact H2|].
  unfold column_letter.
  rewrite (lower_app_char _ (str_of_int (board_size - row))).
  by rewrite lower_str_of_int.
Qed.

(** Row 30 of a 9x9 board, column 18: the text is "T-21". *)
Lemma gtp_roundtrip_any_row_witness :
  coord_to_gtp 30 18 9 = Ok "T-21" /\
  gtp_to_coord "T-21" 9 = Ok (30, 18) /\
  gtp_to_coord "t-21" 9 = Ok (30, 18).
Proof.
  destruct (proj1 (gtp_roundtrip_any_row 30 18 9 ltac:(lia)))
    as (gtp & H1 & H2 & H3);
    [apply within_str_limit_maxsize; by vm_compute|].
  assert (gtp = "T-21") as -> by (by injection H1).
  split_and!; [exact H1 | exact H2 | exact H3].
Defined.

(** X16. A negative column is not refused: from -19 to -1 it names the
    column counted from the right end of the letters, so [coord_to_gtp]
    does what it does for the column [col + 19]; when it returns a text
    (the row number is within the limit of [str]), decoding the text
    gives the column [col + 19], not [col]. *)
Theorem coord_to_gtp_negative_column (row col board_size : Z) :
  -19 <= col < 0 ->
  coord_to_gtp row col board_size = coord_to_gtp row (col + 19) board_size /\
  (within_str_limit (board_size - row) ->
   exists gtp,
     coord_to_gtp row col board_size = Ok gtp /\
     gtp_to_coord gtp board_size = Ok (row, col + 19)).
Proof.
  intros Hcol.
  pose proof (coord_to_gtp_wraps row col board_size Hcol) as Hwrap.
  split; [exact Hwrap|]. intros Hn. rewrite Hwrap.
  eexists. split; [apply coord_to_gtp_column; [lia|done]|].
  replace (Ok (row, col + 19))
    with (Ok (A := Z * Z) (board_size - (board_size - row), col + 19))
    by (do 2 f_equal; lia).
  apply gtp_to_coord_column; [lia|done].
Qed.

(** Column -1 of a 19x19 board is read as column 18. *)
Lemma coord_to_gtp_negative_column_witness :
  coord_to_gtp 3 (-1) 19 = Ok "T16" /\ gtp_to_coord "T16" 19 = Ok (3, 18).
Proof.
  destruct (proj2 (coord_to_gtp_negative_column 3 (-1) 19 ltac:(lia)))
    as (gtp & H1 & H2);
    [apply within_str_limit_maxsize; by vm_compute|].
  assert (gtp = "T16") as -> by (by injection H1).
  split; [exact H1 | exact H2].
Defined.

Lemma index_from_range sub s i0 i :
  index_from sub s i0 = Ok i ->
  i0 <= i <= i0 + Z.of_nat (String.length s) /\
  (sub <> "" -> i < i0 + Z.of_nat (String.length s)).
Proof.
  revert i0. induction s as [|c s IH]; intros i0.
  - destruct sub; simpl; [|done]. intros [= Hi]. split; [lia|done].
  - change (index_from sub (String c s) i0)
      with (if String.prefix sub (String c s) then Ok i0
            else index_from sub s (i0 + 1)).
    simpl String.length.
    destruct (String.prefix sub (String c s)).
    + intros [= Hi]. split; lia.
    + intros H. apply IH in H as [H1 H2]. split; [lia|].
      intros Hsub. specialize (H2 Hsub). lia.
Qed.

Lemma getitem_one_char s i first :
  getitem s i = Ok first -> exists c, first = String c EmptyString.
Proof.
  unfold getitem. destruct (_ && _); [|done].
  destruct (String.get _ _) as [c|]; [|done]. intros [= <-]. by exists c.
Qed.

(** X17. Whatever text [gtp_to_coord] accepts, the column it returns is
    one of the 19 columns, and encoding the result gives a text that is
    decoded to the same coordinate: [coord_to_gtp] after [gtp_to_coord]
    puts a point in its normal form. *)
Theorem gtp_decode_then_encode (gtp_point : string) (board_size row col : Z) :
  gtp_to_coord gtp_point board_size = Ok (row, col) ->
  0 <= col < 19 /\
  exists gtp,
    coord_to_gtp row col board_size = Ok gtp /\
    gtp_to_coord gtp board_size = Ok (row, col).
Proof.
  unfold gtp_to_coord.
  destruct (getitem gtp_point 0) as [first|e] eqn:Hfirst; simpl; [|done].
  apply getitem_one_char in Hfirst as [c ->].
  destruct (index letters (upper (String c EmptyString))) as [i|e] eqn:Hi;
    simpl; [|done].
  destruct (int_of_str (slice_from_1 gtp_point)) as [n|e] eqn:Hn; simpl;
    [|done].
  intros [= <- <-].
  apply int_of_str_within in Hn.
  replace n with (board_size - (board_size - n)) in Hn by lia.
  apply index_from_range in Hi as [Hi1 Hi2].
  assert (Hcol : 0 <= i < 19).
  { simpl in Hi1, Hi2. split; [lia|]. by apply Hi2. }
  split; [done|].
  eexists. split; [by apply coord_to_gtp_column|].
  replace (Ok (board_size - n, i))
    with (Ok (A := Z * Z)
            (board_size - (board_size - (board_size - n)), i))
    by (do 2 f_equal; lia).
  by apply gtp_to_coord_column.
Qed.

(** The text "q016" is not in normal form: it is decoded like "Q16". *)
Lemma gtp_decode_then_encode_witness :
  gtp_to_coord "q016" 19 = Ok (3, 15) /\
  coord_to_gtp 3 15 19 = Ok "Q16" /\
  gtp_to_coord "Q16" 19 = Ok (3, 15).
Proof.
  split; [reflexivity|].
  destruct (gtp_decode_then_encode "q016" 19 3 15 eq_refl)
    as (_ & gtp & H1 & H2).
  assert (gtp = "Q16") as -> by (by injection H1).
  split; [exact H1 | exact H2].
Defined.

(** ** The picture of the board *)

Lemma for_each_Forall2 {A B} (f : A -> outcome B) l ys :
  for_each f l = Ok ys <-> Forall2 (fun x y => f x = Ok y) l ys.
Proof.
  revert ys. induction l as [|x l IH]; intros ys; simpl.
  - split; [intros [= <-]; constructor | by inversion 1].
  - destruct (f x) as [y|e] eqn:Hx; simpl.
    + destruct (for_each f l) as [ys'|e] eqn:Hl; simpl.
      * split.
        -- intros [= <-]. constructor; [done|]. by apply IH.
        -- inversion 1 as [|? y' ? ys'' Hy Hys]; subst.
           apply IH in Hys. congruence.
      * split; [done|]. inversion 1 as [|? y' ? ys'' Hy Hys]; subst.
        apply IH in Hys. done.
    + split; [done|]. inversion 1; congruence.
Qed.

Lemma for_each_total {A B} (f : A -> outcome B) l :
  (forall x, x ∈ l -> exists y, f x = Ok y) ->
  exists ys, for_each f l = Ok ys.
Proof.
  induction l as [|x l IH]; intros Hf; simpl; [by eexists|].
  destruct (Hf x) as [y ->]; [by left|].
  destruct IH as [ys ->]; [intros x' Hx'; apply Hf; by right|].
  by eexists.
Qed.

Lemma list_getitem_in_range {A} (l : list A) i :
  0 <= i < Z.of_nat (length l) ->
  exists x, list_getitem l i = Ok x /\ l !! Z.to_nat i = Some x.
Proof.
  intros Hi. unfold list_getitem.
  replace (i <? 0) with false by (symmetry; apply Z.ltb_ge; lia).
  replace ((0 <=? i) && (i <? Z.of_nat (length l))) with true
    by (symmetry; apply andb_true_intro; split;
        [apply Z.leb_le | apply Z.ltb_lt]; lia).
  destruct (l !! Z.to_nat i) as [x|] eqn:E; [by exists x|].
  apply lookup_ge_None in E. lia.
Qed.

Lemma board_row_line_total state row :
  square_board state -> 0 <= row < board_size state ->
  exists cells,
    for_each (fun col =>
        line ← list_getitem (board state) row;
        stone ← list_getitem line col;
        Ok (cell_text stone row col (board_size state)))
      (py_range (board_size state)) = Ok cells /\
    board_row_line state row
    = Ok ((format_2d (board_size state - row) ++ " ") ++ str_concat cells
          ++ format_2d (board_size state - row)).
Proof.
  intros (Hsize & Hrows & Hcols) Hrow.
  destruct (list_getitem_in_range (board state) row) as (line & Hline & Hl);
    [lia|].
  assert (Hlen : length line = Z.to_nat (board_size state)).
  { rewrite Forall_forall in Hcols. apply Hcols.
    by eapply list_elem_of_lookup_2. }
  destruct (for_each_total
              (fun col =>
                 line ← list_getitem (board state) row;
                 stone ← list_getitem line col;
                 Ok (cell_text stone row col (board_size state)))
              (py_range (board_size state))) as [cells Hcells].
  { intros col Hcol%elem_of_seqZ. rewrite Hline. simpl.
    destruct (list_getitem_in_range line col) as (stone & -> & _); [lia|].
    by eexists. }
  exists cells. split; [done|].
  unfold board_row_line. by rewrite Hcells.
Qed.

(** X18. When the board has [board_size] rows of [board_size] cells,
    [board_to_ascii] raises nothing: it returns the header, one line for
    each row and the header again, joined by line feeds. *)
Theorem board_to_ascii_square (state : GameState) :
  square_board state ->
  exists header rows,
    board_lines state = Ok ([header] ++ rows ++ [header])%list /\
    length rows = Z.to_nat (board_size state) /\
    board_to_ascii state
    = Ok (join newline ([header] ++ rows ++ [header])%list).
Proof.
  intros Hsq. unfold board_to_ascii, board_lines.
  destruct (for_each_total (board_row_line state)
              (py_range (board_size state))) as [rows Hrows].
  { intros row Hrow%elem_of_seqZ.
    destruct (board_row_line_total state row Hsq) as (cells & _ & ->);
      [lia|]. by eexists. }
  rewrite Hrows. simpl. eexists _, rows. split_and!; try done.
  apply for_each_Forall2, Forall2_length in Hrows.
  rewrite <- Hrows. unfold py_range. by rewrite length_seqZ.
Qed.

(** The picture of the empty 19x19 board has 21 lines. *)
Lemma board_to_ascii_square_witness :
  exists header rows,
    board_lines new_game = Ok ([header] ++ rows ++ [header])%list /\
    length rows = 19%nat.
Proof.
  destruct (board_to_ascii_square new_game) as (header & rows & H1 & H2 & _).
  - apply (bool_decide_unpack _). by vm_compute.
  - by exists header, rows.
Defined.

Lemma cell_text_length stone row col size :
  String.length (cell_text stone row col size) = 2%nat.
Proof. unfold cell_text. repeat case_match; done. Qed.

Lemma cell_text_first stone row col size :
  (String.get 0 (cell_text stone row col size) = Some "X"%char
   <-> stone = Some "B") /\
  (String.get 0 (cell_text stone row col size) = Some "O"%char
   <-> stone = Some "W").
Proof.
  unfold cell_text.
  destruct (decide (stone = Some "B")) as [->|HB]; [by split; split|].
  destruct (decide (stone = Some "W")) as [->|HW]; [by split; split|].
  destruct (is_star_point row col size); by split; split.
Qed.

Lemma get_str_concat (cells : list string) (rest : string) k cell :
  Forall (fun s => String.length s = 2%nat) cells ->
  cells !! k = Some cell ->
  String.get (2 * k) (str_concat cells ++ rest) = String.get 0 cell.
Proof.
  intros Hlen. revert k. induction Hlen as [|s cells Hs Hcells IH];
    intros k; [done|].
  destruct s as [|a [|b [|? ?]]]; try done.
  destruct k as [|k]; simpl.
  - by intros [= <-].
  - intros Hk. replace (k + S (k + 0))%nat with (S (2 * k)) by lia.
    simpl. by apply IH.
Qed.

(** The header of the picture has the letter of a column two places to
    the right of that of the column before, and the first one at the
    fourth place. *)
Lemma header_letters :
  Forall (fun size =>
    Forall (fun col =>
      String.get (Z.to_nat (3 + 2 * col))
        ("   " ++ join " " (str_chars (str_slice_to "ABCDEFGHJKLMNOPQRST" size)))
      = String.get 0 (column_letter col))
      (seqZ 0 size))
    (seqZ 0 20).
Proof. apply (bool_decide_unpack _). by vm_compute. Qed.

Lemma format_2d_label :
  Forall (fun n => String.length (format_2d n ++ " ") = 3%nat) (seqZ 1 19).
Proof. apply (bool_decide_unpack _). by vm_compute. Qed.

(** X19. The picture agrees with the GTP coordinates.  On a board of at
    most 19 lines, the line of the picture for [row] starts with the row
    number that [coord_to_gtp] gives to [row], and the stone of the cell
    ([row], [col]) is drawn on that line exactly under the letter that
    [coord_to_gtp] gives to [col] in the header: 'X' for a black stone and
    'O' for a white one. *)
Theorem board_picture_agrees (state : GameState) (row col : Z) :
  square_board state ->
  board_size state <= 19 ->
  0 <= row < board_size state ->
  0 <= col < board_size state ->
  exists lines header line cells stone,
    board_lines state = Ok lines /\
    lines !! 0%nat = Some header /\
    lines !! S (Z.to_nat row) = Some line /\
    (board state !! Z.to_nat row) ≫= (.!! Z.to_nat col) = Some stone /\
    coord_to_gtp row col (board_size state)
    = Ok (column_letter col ++ str_of_int (board_size state - row)) /\
    line = (format_2d (board_size state - row) ++ " ") ++ cells /\
    String.get (Z.to_nat (3 + 2 * col)) header
    = String.get 0 (column_letter col) /\
    (String.get (Z.to_nat (3 + 2 * col)) line = Some "X"%char
     <-> stone = Some "B") /\
    (String.get (Z.to_nat (3 + 2 * col)) line = Some "O"%char
     <-> stone = Some "W").
Proof.
  intros Hsq Hmax Hrow Hcol. pose proof Hsq as (Hsize & Hrows & Hcols).
  (* the rows *)
  destruct (for_each_total (board_row_line state)
              (py_range (board_size state))) as [rows Hall].
  { intros r Hr%elem_of_seqZ.
    destruct (board_row_line_total state r Hsq) as (cs & _ & ->); [lia|].
    by eexists. }
  pose proof Hall as Hrowsl. apply for_each_Forall2 in Hrowsl.
  assert (Hseq : py_range (board_size state) !! Z.to_nat row = Some row).
  { unfold py_range. rewrite lookup_seqZ. split; lia. }
  destruct (Forall2_lookup_l _ _ _ _ _ Hrowsl Hseq) as (line & Hline & Hbrl).
  (* the cells of the row *)
  destruct (board_row_line_total state row Hsq Hrow) as (cells & Hcells & Hl).
  rewrite Hl in Hbrl. injection Hbrl as <-.
  apply for_each_Forall2 in Hcells.
  assert (Hseqc : py_range (board_size state) !! Z.to_nat col = Some col).
  { unfold py_range. rewrite lookup_seqZ. split; lia. }
  destruct (Forall2_lookup_l _ _ _ _ _ Hcells Hseqc) as (cell & Hcell & Hc).
  destruct (list_getitem_in_range (board state) row) as (bl & Hbl & Hbl');
    [lia|].
  assert (Hlen : length bl = Z.to_nat (board_size state)).
  { rewrite Forall_forall in Hcols. apply Hcols.
    by eapply list_elem_of_lookup_2. }
  destruct (list_getitem_in_range bl col) as (stone & Hst & Hst'); [lia|].
  rewrite Hbl in Hc. simpl in Hc. rewrite Hst in Hc. simpl in Hc.
  injection Hc as <-.
  assert (Hcells2 : Forall (fun s => String.length s = 2%nat) cells).
  { apply Forall_forall. intros s [i Hi]%list_elem_of_lookup_1.
    destruct (Forall2_lookup_r _ _ _ _ _ Hcells Hi) as (c' & _ & Hc').
    destruct (list_getitem (board state) row); simpl in Hc'; [|done].
    destruct (list_getitem _ c'); simpl in Hc'; [|done].
    injection Hc' as <-. apply cell_text_length. }
  (* the place of the cell on the line *)
  assert (Hget : String.get (Z.to_nat (3 + 2 * col))
                   ((format_2d (board_size state - row) ++ " ")
                    ++ str_concat cells
                    ++ format_2d (board_size state - row))
                 = String.get 0
                     (cell_text stone row col (board_size state))).
  { pose proof format_2d_label as Hlab. rewrite Forall_forall in Hlab.
    specialize (Hlab (board_size state - row)).
    rewrite elem_of_seqZ in Hlab. specialize (Hlab ltac:(lia)).
    replace (Z.to_nat (3 + 2 * col))
      with (2 * Z.to_nat col
            + String.length (format_2d (board_size state - row) ++ " "))%nat
      by lia.
    rewrite <- append_correct2. by apply get_str_concat. }
  set (header := "   " ++ join " "
                   (str_chars (str_slice_to "ABCDEFGHJKLMNOPQRST"
                                 (board_size state)))).
  exists ([header] ++ rows ++ [header])%list.
  exists header.
  eexists _, (str_concat cells ++ format_2d (board_size state - row)),
    stone.
  split_and!.
  - unfold board_lines. by rewrite Hall.
  - done.
  - simpl. rewrite lookup_app_l; [exact Hline|].
    by eapply lookup_lt_Some.
  - rewrite Hbl'. simpl. exact Hst'.
  - apply coord_to_gtp_column; [lia|].
    apply within_str_limit_maxsize. lia.
  - done.
  - pose proof header_letters as Hh. rewrite Forall_forall in Hh.
    specialize (Hh (board_size state)). rewrite elem_of_seqZ in Hh.
    specialize (Hh ltac:(lia)). rewrite Forall_forall in Hh.
    apply Hh. apply elem_of_seqZ. lia.
  - rewrite Hget. apply cell_text_first.
  - rewrite Hget. apply cell_text_first.
Qed.

(** The black stone of [game_9] at row 2, column 6 (G7): the letter G is
    at place 15 of the header, and so is the X on the fourth line. *)
Lemma board_picture_agrees_witness :
  coord_to_gtp 2 6 9 = Ok "G7" /\
  exists lines header line,
    board_lines game_9 = Ok lines /\
    lines !! 0%nat = Some header /\
    lines !! 3%nat = Some line /\
    String.get 15 header = Some "G"%char /\
    String.get 15 line = Some "X"%char.
Proof.
  destruct (board_picture_agrees game_9 2 6)
    as (lines & header & line & cells & stone
        & H1 & H2 & H3 & H4 & H5 & _ & H7 & H8 & _).
  - apply (bool_decide_unpack _). by vm_compute.
  - simpl. lia.
  - simpl. lia.
  - simpl. lia.
  - split; [exact H5|].
    exists lines, header, line. split_and!; try done.
    apply H8. simpl in H4. by injection H4 as <-.
Defined.

(** ** The history of the moves *)

Lemma for_each_enumerate_lookup {A B} (f : Z -> A -> outcome B) start l ys :
  for_each_enumerate f start l = Ok ys ->
  length ys = length l /\
  forall k y, ys !! k = Some y ->
    exists x, l !! k = Some x /\ f (start + Z.of_nat k) x = Ok y.
Proof.
  revert start ys. induction l as [|x l IH]; intros start ys; simpl.
  - intros [= <-]. split; [done|]. intros k y Hk. by destruct k.
  - destruct (f start x) as [y0|e] eqn:Hx; simpl; [|done].
    destruct (for_each_enumerate f (start + 1) l) as [ys'|e] eqn:Hl;
      simpl; [|done].
    intros [= <-]. apply IH in Hl as [Hlen Hys]. split; [simpl; lia|].
    intros [|k] y; simpl.
    + intros [= <-]. exists x. split; [done|].
      by replace (start + Z.of_nat 0) with start by lia.
    + intros Hk. destruct (Hys k y Hk) as (x' & Hx' & Hf).
      exists x'. split; [done|].
      by replace (start + Z.of_nat (S k)) with (start + 1 + Z.of_nat k)
        by lia.
Qed.

(** X20. The lines of [format_move_history] are numbered by the place
    of their moves in the game, so the last line has the number of the
    last move.  For a positive [last_n] there are [last_n] lines, or one
    for each move if there are fewer; for [last_n = 0] every move is
    listed, not none; and a negative [last_n] leaves out that many moves
    at the start. *)
Theorem move_history_numbering (state : GameState) (last_n : Z)
    (lines : list string) :
  move_history_lines state last_n = Ok lines ->
  let n := length (moves state) in
  length lines
  = (if 0 <? last_n then Nat.min (Z.to_nat last_n) n
     else (n - Nat.min (Z.to_nat (- last_n)) n)%nat) /\
  (forall k line, lines !! k = Some line ->
     exists m,
       moves state !! (n - length lines + k)%nat = Some m /\
       move_line (board_size state)
         (Z.of_nat (n - length lines + k) + 1) m = Ok line) /\
  (moves state <> [] ->
   format_move_history state last_n = Ok (join newline lines)).
Proof.
  intros Hlines. cbv zeta. pose proof Hlines as Hl.
  unfold move_history_lines in Hl.
  apply for_each_enumerate_lookup in Hl as [Hlen Hnum].
  unfold list_slice_from in *. rewrite length_drop in Hlen.
  set (n := length (moves state)) in *.
  assert (Hstart : slice_start (- last_n) n = (n - length lines)%nat).
  { rewrite Hlen. unfold slice_start.
    destruct (Z.ltb_spec (- last_n) 0); lia. }
  split_and!.
  - rewrite Hlen. unfold slice_start.
    destruct (Z.ltb_spec (- last_n) 0), (Z.ltb_spec 0 last_n); lia.
  - intros k line Hk. destruct (Hnum k line Hk) as (m & Hm & Hf).
    rewrite lookup_drop, Hstart in Hm. exists m. split; [done|].
    rewrite <- Hf. f_equal. unfold len. rewrite length_drop.
    fold n. rewrite Hstart. lia.
  - intros Hne. unfold format_move_history.
    destruct (moves state); [done|]. by rewrite Hlines.
Qed.

(** The two moves of [game_9], asked for with [last_n = 0]: both are
    listed. *)
Lemma move_history_numbering_witness :
  move_history_lines game_9 0 = Ok ["1. Black: G7"; "2. White: C3"] /\
  format_move_history game_9 0
  = Ok ("1. Black: G7" ++ newline ++ "2. White: C3").
Proof.
  split; [reflexivity|].
  exact (proj2 (proj2 (move_history_numbering game_9 0
                         ["1. Black: G7"; "2. White: C3"] eq_refl))
           ltac:(discriminate)).
Defined.

(** * Further properties of the codec *)

(** X21. When every move has one of the 19 columns (negative ones
    counted from the right) and a row number within the limit of [str],
    [_build_query] returns a query: it carries the identifier made for it,
    the moves in the order of the game, with their colours, the text of
    [coord_to_gtp] for a coordinate and "pass" for a pass, asks for the
    analysis of the position after the last of them, and never has initial
    stones, whatever is on the board. *)
Theorem build_query_moves (uuid : string) (state : GameState)
    (max_visits : Z) (include_ownership include_policy : bool)
    (analysis_pv_len : Z) :
  (forall color row col,
     (color, Some (row, col)) ∈ moves state ->
     -19 <= col < 19 /\ within_str_limit (board_size state - row)) ->
  exists query,
    _build_query uuid state max_visits include_ownership include_policy
      analysis_pv_len = Ok query /\
    q_id query = Some uuid /\
    (q_moves query).*1 = (moves state).*1 /\
    (forall k color, moves state !! k = Some (color, None) ->
                     q_moves query !! k = Some (color, "pass")) /\
    (forall k color row col,
       moves state !! k = Some (color, Some (row, col)) ->
       exists gtp,
         coord_to_gtp row col (board_size state) = Ok gtp /\
         q_moves query !! k = Some (color, gtp)) /\
    q_analyzeTurns query = [len (moves state)] /\
    q_initialStones query = [] /\
    q_boardXSize query = board_size state /\
    q_boardYSize query = board_size state.
Proof.
  intros Hmoves. unfold _build_query.
  destruct (for_each (encode_move (board_size state)) (moves state))
    as [ms|e] eqn:E; simpl.
  - apply for_each_Forall2 in E. eexists. split_and!; try done; simpl.
    + clear Hmoves.
      induction E as [|[color coord] [color' text] l l' H E IH];
        [done|]. simpl. f_equal; [|done].
      destruct coord as [[row col]|]; simpl in H.
      * destruct (coord_to_gtp row col (board_size state)); simpl in H;
          [|done]. by injection H as <- _.
      * by injection H as <- _.
    + intros k color Hk.
      destruct (Forall2_lookup_l _ _ _ _ _ E Hk) as (qm & -> & Hqm).
      simpl in Hqm. by injection Hqm as <-.
    + intros k color row col Hk.
      destruct (Forall2_lookup_l _ _ _ _ _ E Hk) as (qm & -> & Hqm).
      simpl in Hqm.
      destruct (coord_to_gtp row col (board_size state)) as [gtp|];
        simpl in Hqm; [|done].
      injection Hqm as <-. by exists gtp.
    + unfold len. by rewrite (Forall2_length _ _ _ E).
  - apply for_each_raises in E as (m & Hin & Hm).
    apply encode_move_raises in Hm as (color & row & col & -> & Hg).
    destruct (Hmoves color row col Hin) as [Hcol Hrow].
    apply coord_to_gtp_raises in Hg as [[_ Hg]|(_ & _ & Hg)]; by destruct Hg.
Qed.

(** The two moves of [game_9]. *)
Lemma build_query_moves_witness :
  exists query,
    _build_query "u1" game_9 100 true false 10 = Ok query /\
    q_moves query = [("B", "G7"); ("W", "C3")] /\
    q_analyzeTurns query = [2].
Proof.
  destruct (build_query_moves "u1" game_9 100 true false 10)
    as (query & H1 & _ & _ & _ & _ & H2 & _).
  - intros color row col Hin. simpl in Hin.
    repeat (apply elem_of_cons in Hin as [[= -> -> ->]|Hin];
            [split; [lia|apply within_str_limit_maxsize; by vm_compute]|]).
    by apply elem_of_nil in Hin.
  - exists query. split_and!; [exact H1 | | exact H2].
    by injection H1 as <-.
Defined.

(** X22. Candidate moves with the same number of visits keep the order
    in which the engine gave them: for every number of visits, the moves of
    the result with that number are those of the reply, in the order of the
    reply. *)
Theorem parse_response_ties (response : Response) (state : GameState)
    (k : Z) :
  filter (fun m => visits m = k) (move_infos (_parse_response response state))
  = filter (fun m => visits m = k)
      (parse_move_info <$> get (r_moveInfos response) []).
Proof. simpl. apply sort_reverse_stable. Qed.

(** * Further properties of the reader *)

Section ReaderEnds.

Variable json_loads : string -> outcome json.

(** X23. A line that is JSON but no object (an array, a number, a
    string) ends the reader loop, and so does a line on which
    [json.loads] raises anything but [JSONDecodeError]: the lines after it
    are not read and the state stays as it is, so a reply among them never
    reaches its waiter. *)
Theorem read_non_object_ends_loop (line : string)
    (rest : list (outcome string)) (c : Client) :
  strip line <> "" ->
  json_loads (strip line) = Ok JOther \/
  (exists e, json_loads (strip line) = Raise e /\ e <> JSONDecodeError) ->
  _read_responses_step json_loads (Ok line) c = (false, c) /\
  _read_responses json_loads (Ok line :: rest) c = c.
Proof.
  intros Hline Hparse.
  assert (Hne : line <> "") by (by intros ->).
  assert (Hstep : _read_responses_step json_loads (Ok line) c = (false, c)).
  { unfold _read_responses_step. rewrite !decide_False by done.
    destruct Hparse as [->|(e & -> & He)]; [done|]. by destruct e. }
  split; [done|]. destruct (process c) as [p|] eqn:Hp.
  - by rewrite (read_responses_cons json_loads _ _ _ p Hp), Hstep.
  - simpl. by rewrite Hp.
Qed.

End ReaderEnds.

(** The line "[]", then the reply for "u1": the reply is not cached. *)
Lemma read_non_object_ends_loop_witness :
  _read_responses loads_test [Ok "[]"; Ok "reply u1"] c_two_pending
  = c_two_pending.
Proof.
  apply (read_non_object_ends_loop loads_test "[]" [Ok "reply u1"]
           c_two_pending); [done | left; reflexivity].
Defined.

(** * Further properties: the territory map and the server *)

Lemma ownership_row_line_total ownership board_size row :
  len ownership = board_size * board_size ->
  0 <= row < board_size ->
  exists line, ownership_row_line ownership board_size row = Ok line.
Proof.
  intros Hlen Hrow. unfold ownership_row_line.
  destruct (for_each_total
              (fun col =>
                 own ← list_getitem ownership (row * board_size + col);
                 Ok (ownership_text own))
              (py_range board_size)) as [cells ->]; [|by eexists].
  intros col Hcol%elem_of_seqZ.
  destruct (list_getitem_in_range ownership (row * board_size + col))
    as (own & -> & _); [|by eexists].
  unfold len in Hlen. nia.
Qed.

(** X24. [format_ownership_map] never raises: no index leaves the data.
    For no data, or data whose length is not the square of the board
    size, it returns the message that the data is not available; for data
    of the right length it returns a title of three lines, the header, one
    line for each row and the header again. *)
Theorem format_ownership_map_total (ownership : list float)
    (board_size : Z) :
  (ownership = [] \/ len ownership <> board_size * board_size ->
   format_ownership_map ownership board_size
   = Ok "Ownership data not available") /\
  (ownership <> [] -> len ownership = board_size * board_size ->
   exists lines,
     ownership_lines ownership board_size = Ok lines /\
     length lines = (Z.to_nat board_size + 5)%nat /\
     format_ownership_map ownership board_size = Ok (join newline lines)).
Proof.
  unfold format_ownership_map. split.
  - intros [->|Hlen]; [done|].
    replace (len ownership =? board_size * board_size) with false
      by (symmetry; by apply Z.eqb_neq).
    by rewrite orb_true_r.
  - intros Hne Hlen.
    rewrite bool_decide_eq_false_2 by (by destruct ownership).
    rewrite Hlen, Z.eqb_refl. simpl.
    unfold ownership_lines.
    destruct (for_each_total (ownership_row_line ownership board_size)
                (py_range board_size)) as [rows Hrows].
    { intros row Hrow%elem_of_seqZ.
      apply ownership_row_line_total; [done|lia]. }
    rewrite Hrows. simpl. eexists. split_and!; try done.
    apply for_each_Forall2, Forall2_length in Hrows.
    simpl. rewrite length_app. simpl. rewrite <- Hrows.
    unfold py_range. rewrite length_seqZ. lia.
Qed.

(** Four values for a board of two lines; three values are refused. *)
Lemma format_ownership_map_total_witness :
  format_ownership_map [0.9; 0.3; -0.9; 0.0]%float 2
  = Ok (join newline
          ["=== Territory Map ===";
           "(B = Black territory, W = White territory, . = neutral)";
           ""; "   A B"; " 2 B b  2"; " 1 W .  1"; "   A B"]) /\
  format_ownership_map [0.9; 0.3; -0.9]%float 2
  = Ok "Ownership data not available".
Proof.
  split; [reflexivity|].
  apply (proj1 (format_ownership_map_total [0.9; 0.3; -0.9]%float 2)).
  right. done.
Defined.

Section ServerClient.

Variables KATAGO_PATH KATAGO_MODEL KATAGO_CONFIG : string.

(** X25. [get_katago_client] reports a failure of [start] once.  When
    the first call raises, the client is in the global variable all the
    same, not alive; every later call returns that client without calling
    [start] and without raising, whatever the world is like. *)
Theorem get_katago_client_after_failure (w w' : World) (e : exn)
    (g : option Client) :
  Server.get_katago_client KATAGO_PATH KATAGO_MODEL KATAGO_CONFIG w None
  = (Raise e, g) ->
  exists c,
    g = Some c /\
    _is_alive c = false /\
    Server.get_katago_client KATAGO_PATH KATAGO_MODEL KATAGO_CONFIG w' g
    = (Ok c, g).
Proof.
  unfold Server.get_katago_client.
  set (c0 := __init__ KATAGO_PATH KATAGO_MODEL KATAGO_CONFIG 2 false).
  pose proof (start_fails_not_alive w c0) as Hdead.
  destruct (start w c0) as [[[]|e'] c] eqn:Hstart; [done|].
  intros [= <- <-]. exists c. split_and!; [done| |done].
  by apply (Hdead e').
Qed.

End ServerClient.

(** * The invariants of the client *)

Section Invariants.

Variable json_loads : string -> outcome json.
Variable json_dumps : Query -> string.

Lemma send_query_responses w query c :
  responses (snd (_send_query json_dumps w query c)) = responses c.
Proof.
  unfold _send_query.
  pose proof (start_frame w c) as Hframe. cbv zeta in Hframe.
  destruct Hframe as (_ & Hresp & _).
  assert (Hr : responses
                 (snd (if negb (_is_alive c) then start w c else (Ok (), c)))
               = responses c) by (by destruct (_is_alive c)).
  destruct (if negb (_is_alive c) then start w c else (Ok (), c))
    as [[[]|e] c1]; [|done].
  simpl in Hr. destruct (_is_alive c1); simpl; [|done].
  destruct (process c1) as [p|]; [|done].
  destruct (write_outcome w) as [[]|e]; [done|].
  by destruct (is_OSError e).
Qed.

Lemma cache_ok_wait rid during c :
  cache_ok c -> cache_ok (snd (_wait_for_response json_loads rid during c)).
Proof.
  intros Hok. unfold _wait_for_response.
  destruct (pending_requests c !! rid) as [h|]; [|done].
  pose proof (cache_ok_event_wait json_loads h during c Hok) as Hok'.
  destruct (event_wait json_loads h during c) as [[] c1]; [|done].
  unfold cache_ok. simpl. by apply map_Forall_delete.
Qed.

Lemma analyze_position_state w during state mv io ip pv c :
  let c' := snd (analyze_position json_loads json_dumps w during state
                   mv io ip pv c) in
  c' = c \/
  (exists query, c' = snd (_send_query json_dumps w query c)) \/
  (exists query rid,
     c' = snd (_wait_for_response json_loads rid during
                 (snd (_send_query json_dumps w query c)))).
Proof.
  cbv zeta. unfold analyze_position.
  destruct (_build_query _ _ _ _ _ _) as [query|e]; [|by left].
  destruct (_send_query json_dumps w query c) as [[rid|e] c1] eqn:Hsend.
  - right. right. exists query, rid. rewrite Hsend. simpl.
    by destruct (_wait_for_response json_loads rid during c1) as [[r|] c2].
  - right. left. exists query. by rewrite Hsend.
Qed.

(** X26. Every state that a client reaches keeps the two invariants:
    each identifier of the table has an event of its own, made before, and
    each cached reply sits under the identifier it carries.  These are the
    conditions under which replies reach the right waiter. *)
Theorem reachable_invariants (c : Client) :
  reachable json_loads json_dumps c -> wf c /\ cache_ok c.
Proof.
  induction 1 as [kp mp cp n d | w c _ [Hwf Hok] | c _ [Hwf Hok]
                  | c p _ [Hwf Hok] Hp | w query c _ [Hwf Hok]
                  | rid during c _ [Hwf Hok] | a c _ [Hwf Hok]
                  | w during state mv io ip pv c _ [Hwf Hok]].
  - split; [apply wf_init|]. intros k r. simpl. by rewrite lookup_empty.
  - split; [by apply wf_start|].
    pose proof (start_frame w c) as Hf. cbv zeta in Hf.
    destruct Hf as (_ & Hr & _). unfold cache_ok. by rewrite Hr.
  - unfold stop. by destruct (process c).
  - done.
  - split; [by apply wf_send_query|].
    unfold cache_ok. by rewrite send_query_responses.
  - split; [by apply wf_wait | by apply cache_ok_wait].
  - split; [by apply run_activity_wf | by apply cache_ok_run_activity].
  - pose proof (analyze_position_state w during state mv io ip pv c) as Hs.
    cbv zeta in Hs.
    destruct Hs as [->|[(query & ->)|(query & rid & ->)]]; [done|..].
    + split; [by apply wf_send_query|].
      unfold cache_ok. by rewrite send_query_responses.
    + split.
      * by apply wf_wait, wf_send_query.
      * apply cache_ok_wait. unfold cache_ok.
        by rewrite send_query_responses.
Qed.

End Invariants.

(** A new client that has analysed a position, with the reply read while
    it waited. *)
Lemma reachable_invariants_witness :
  let c := snd (analyze_position loads_test dumps_test world_ok
                  [Stdout (Ok "reply u1")] new_game 100 true false 10
                  c_new) in
  wf c /\ cache_ok c.
Proof.
  apply (reachable_invariants loads_test dumps_test).
  apply reach_analyze. unfold c_new. apply reach_init.
Defined.

(** The analysis of the empty board by a running client, with the reply
    to "u1" read while it waits. *)
Lemma analyze_position_own_reply_witness :
  exists res c',
    analyze_position loads_test dumps_test world_ok
      [Stdout (Ok "reply u2"); Stdout (Ok "reply u1")] new_game 100 true
      false 10 c_running = (Ok (Some res), c') /\
    id res = "u1" /\
    responses c' !! "u1" = None.
Proof.
  eexists _, _. split; [reflexivity|].
  assert (Hok : cache_ok c_running)
    by (apply (bool_decide_unpack _); by vm_compute).
  destruct (analyze_position_own_reply loads_test dumps_test world_ok
              [Stdout (Ok "reply u2"); Stdout (Ok "reply u1")] new_game
              100 true false 10 c_running _ _ Hok eq_refl)
    as (response & _ & _ & H1 & _ & H2 & _).
  split; [exact H1 | exact H2].
Defined.

(** A move in the 20th column of a 25x25 board. *)
Lemma analyze_position_bad_column_witness :
  analyze_position loads_test dumps_test world_ok [] game_25 100 true false
    10 c_new = (Raise IndexError, c_new).
Proof.
  destruct (analyze_position_bad_column loads_test dumps_test world_ok []
              game_25 100 true false 10 c_new "B" 3 19)
    as (e & H & _ & He); [simpl; left | lia |].
  rewrite H. f_equal. f_equal. apply He.
  intros color row col Hin. simpl in Hin.
  apply elem_of_cons in Hin as [[= -> -> ->]|Hin];
    [|by apply elem_of_nil in Hin].
  apply within_str_limit_maxsize. by vm_compute.
Defined.

(** On a 19x19 board the point (3, 15) is a star point, and on the
    board. *)
Lemma star_points_symmetric_witness :
  is_star_point 3 15 19 = true /\ 0 <= 3 < 19 /\ 0 <= 15 < 19.
Proof.
  split; [reflexivity|].
  exact (proj2 (proj2 (proj2 (star_points_symmetric 3 15 19))) eq_refl).
Defined.

(** A world without the model file: the first call raises, the second
    returns the client. *)
Lemma get_katago_client_after_failure_witness :
  let w := world_without "model.bin.gz" in
  let first := Server.get_katago_client "katago" "model.bin.gz"
                 "analysis.cfg" w None in
  fst first = Raise (FileNotFoundError "KataGo model not found: model.bin.gz")
  /\ exists c,
       snd first = Some c /\
       Server.get_katago_client "katago" "model.bin.gz" "analysis.cfg"
         world_ok (snd first) = (Ok c, snd first).
Proof.
  cbv zeta. split; [reflexivity|].
  destruct (get_katago_client_after_failure "katago" "model.bin.gz"
              "analysis.cfg" (world_without "model.bin.gz") world_ok _ _
              eq_refl) as (c & H1 & _ & H2).
  exists c. split; [exact H1 | exact H2].
Defined.
